(** * UVM: assembler, instruction codec and interpreter

    A shallow embedding of [uvm_asm.py], [uvm_memory.py], [interpreter.py]
    and [core_runner.py].

    Conventions of the embedding:
    - a Python [int] is a [Z]; [bytes] is a [list byte];
    - a Python [str] is a [string] of code points below 256;
    - a raised exception is the [Raise] case of [result]; the exception
      class is the constructor of [exn], the formatted message is kept as
      a structured [message];
    - [UVMMemory] is a record, and the in-place mutation of the memory
      object is explicit state passing;
    - the lines of the execution log are kept as structured [log_entry]
      values instead of formatted text;
    - the [while] loop of [run_program] recurses on fuel; the fuel that
      [run_program] gives it always suffices ([run_program_total]). *)

From Stdlib Require Import ZArith Lia List Bool.
From Stdlib Require Import Strings.Byte Strings.Ascii Strings.String.
From stdpp Require Import base option list gmap strings.

Local Open Scope Z_scope.

(** ** Exceptions and results *)

Inductive message : Type :=
| MsgOpcodeField (a : Z)               (* pack_instruction, field A *)
| MsgOperandField (b : Z)              (* pack_instruction, field B *)
| MsgInstructionLength (n : nat)       (* decode_instruction, length *)
| MsgUnknownOpcode (a : Z)             (* decode_instruction, field A *)
| MsgUnknownAsmCommand (op : string)   (* asm *)
| MsgArgumentRequired (cmd : string)   (* full_asm *)
| MsgInvalidLiteral (s : string)       (* int(): invalid literal *)
| MsgDigitLimit (digits : nat)         (* int(): too many digits *)
| MsgReadAddress (address : Z)         (* UVMMemory.read_data *)
| MsgWriteAddress (address : Z)        (* UVMMemory.write_data *)
| MsgStackEmpty                        (* UVMMemory.pop *)
| MsgListIndex                         (* list index out of range *)
| MsgIntTooBig                         (* int.to_bytes *)
| MsgNegativeInt.                      (* int.to_bytes *)

Inductive exn : Type :=
| ValueError (m : message)
| IndexError (m : message)
| OverflowError (m : message).

Inductive result (A : Type) : Type :=
| Ok (a : A)
| Raise (e : exn).

Arguments Ok {A} a.
Arguments Raise {A} e.

Definition bind {A B : Type} (r : result A) (k : A -> result B) : result B :=
  match r with
  | Ok a => k a
  | Raise e => Raise e
  end.

Notation "'let?' x ':=' r 'in' k" := (bind r (fun x => k))
  (at level 10, x name, r at level 100, k at level 200).

(** ** Python built-ins on integers and bytes *)

Definition byte_of_Z (z : Z) : byte :=
  match Byte.of_N (Z.to_N (z mod 256)) with
  | Some b => b
  | None => x00
  end.

Definition Z_of_byte (b : byte) : Z := Z.of_N (Byte.to_N b).

Fixpoint little_endian (length : nat) (value : Z) : list byte :=
  match length with
  | O => []
  | S n => byte_of_Z value :: little_endian n (value / 256)
  end.

(** [value.to_bytes(length, "little")] *)
Definition int_to_bytes (value : Z) (length : nat) : result (list byte) :=
  if value <? 0 then Raise (OverflowError MsgNegativeInt)
  else if 256 ^ Z.of_nat length <=? value then Raise (OverflowError MsgIntTooBig)
  else Ok (little_endian length value).

(** [int.from_bytes(bs, byteorder="little")] *)
Fixpoint int_from_bytes (bs : list byte) : Z :=
  match bs with
  | [] => 0
  | b :: rest => Z_of_byte b + 256 * int_from_bytes rest
  end.


(** ** Python built-ins on strings

    Text is a [string] of code points below 256; within that range the
    definitions follow CPython 3.11. *)

Definition code (c : ascii) : nat := nat_of_ascii c.

Definition between (lo hi n : nat) : bool := Nat.leb lo n && Nat.leb n hi.

(** [str.isspace] of one character: what [str.strip()] removes. *)
Definition isspace (c : ascii) : bool :=
  between 9 13 (code c) || between 28 32 (code c)
  || Nat.eqb (code c) 133 || Nat.eqb (code c) 160.

(** The line boundaries of [str.splitlines()]. *)
Definition is_linebreak (c : ascii) : bool :=
  between 10 13 (code c) || between 28 30 (code c) || Nat.eqb (code c) 133.

(** The white space that [int()] skips around a literal. *)
Definition int_isspace (c : ascii) : bool :=
  between 9 13 (code c) || Nat.eqb (code c) 32
  || Nat.eqb (code c) 133 || Nat.eqb (code c) 160.

Definition is_empty (s : string) : bool :=
  match s with
  | EmptyString => true
  | String _ _ => false
  end.

Fixpoint lstrip_with (f : ascii -> bool) (s : string) : string :=
  match s with
  | EmptyString => EmptyString
  | String c s' => if f c then lstrip_with f s' else s
  end.

Fixpoint rstrip_with (f : ascii -> bool) (s : string) : string :=
  match s with
  | EmptyString => EmptyString
  | String c s' =>
      match rstrip_with f s' with
      | EmptyString => if f c then EmptyString else String c EmptyString
      | r => String c r
      end
  end.

(** [s.strip()] *)
Definition strip (s : string) : string := rstrip_with isspace (lstrip_with isspace s).

(** [c in s] for a one-character [c] *)
Fixpoint contains (c : ascii) (s : string) : bool :=
  match s with
  | EmptyString => false
  | String d s' => Ascii.eqb d c || contains c s'
  end.

(** [s.split(sep)] for a one-character [sep] *)
Fixpoint split (sep : ascii) (s : string) : list string :=
  match s with
  | EmptyString => [EmptyString]
  | String c s' =>
      if Ascii.eqb c sep then EmptyString :: split sep s'
      else match split sep s' with
           | field :: fields => String c field :: fields
           | [] => [String c EmptyString]
           end
  end.

(** [s.splitlines()] *)
Fixpoint splitlines (s : string) : list string :=
  match s with
  | EmptyString => []
  | String c s' =>
      if is_linebreak c then
        EmptyString ::
          match s' with
          | String d s'' =>
              if Nat.eqb (code c) 13 && Nat.eqb (code d) 10
              then splitlines s'' else splitlines s'
          | EmptyString => []
          end
      else match splitlines s' with
           | line :: lines => String c line :: lines
           | [] => [String c EmptyString]
           end
  end.

Definition digit_value (c : ascii) : option Z :=
  if between 48 57 (code c) then Some (Z.of_nat (code c) - 48) else None.

(** Scan of the digits of a literal: decimal digits, with single
    underscores between digits.  Returns the value, the number of digits
    and the text left over. *)
Fixpoint scan_digits (s : string) (value : Z) (digits : nat) (prev_digit : bool)
  : option (Z * nat * string) :=
  match s with
  | EmptyString => if prev_digit then Some (value, digits, s) else None
  | String c s' =>
      if Ascii.eqb c "_"%char then
        if prev_digit then scan_digits s' value digits false else None
      else
        match digit_value c with
        | Some d => scan_digits s' (10 * value + d) (S digits) true
        | None => if prev_digit then Some (value, digits, s) else None
        end
  end.

(** The default of [sys.get_int_max_str_digits()]. *)
Definition int_max_str_digits : nat := 4300.

(** [int(s)] for a string [s] *)
Definition int (s : string) : result Z :=
  let t := lstrip_with int_isspace s in
  let '(sign, body) :=
    match t with
    | String "+"%char r => (1, r)
    | String "-"%char r => (-1, r)
    | _ => (1, t)
    end in
  match scan_digits body 0 0 false with
  | None => Raise (ValueError (MsgInvalidLiteral s))
  | Some (value, digits, rest) =>
      if Nat.ltb int_max_str_digits digits
      then Raise (ValueError (MsgDigitLimit digits))
      else if is_empty (lstrip_with int_isspace rest) then Ok (sign * value)
      else Raise (ValueError (MsgInvalidLiteral s))
  end.

(** ** Python built-ins on lists *)

(** [l[i]], with Python's negative indices *)
Definition getitem {A : Type} (l : list A) (i : Z) : option A :=
  if 0 <=? i then l !! Z.to_nat i
  else if 0 <=? i + Z.of_nat (length l) then l !! Z.to_nat (i + Z.of_nat (length l))
  else None.

(** [l[i:j]] for [0 <= i <= j] *)
Definition slice {A : Type} (l : list A) (i j : nat) : list A :=
  take (j - i) (drop i l).

(** [range(0, stop, step)] for a positive [step] *)
Definition range_step (stop step : nat) : list nat :=
  (fun k => k * step)%nat <$> seq 0 ((stop + step - 1) / step).

(** ** uvm_asm.py: the encoder *)

Definition pack_instruction (a b : Z) : result (list byte) :=
  if (a <? 0) || (a >=? Z.shiftl 1 7) then Raise (ValueError (MsgOpcodeField a))
  else if (b <? 0) || (b >=? Z.shiftl 1 26) then Raise (ValueError (MsgOperandField b))
  else
    let value := Z.lor a (Z.shiftl b 7) in
    int_to_bytes value 5.

Definition OP_LOAD_CONST : Z := 14.
Definition OP_READ : Z := 11.
Definition OP_WRITE : Z := 94.
Definition OP_LESS : Z := 69.

Definition asm_load_const (const : Z) : result (list byte) :=
  pack_instruction OP_LOAD_CONST const.

Definition asm_read_value (address : Z) : result (list byte) :=
  pack_instruction OP_READ address.

Definition asm_write_value (address : Z) : result (list byte) :=
  pack_instruction OP_WRITE address.

Definition asm_less (address : Z) : result (list byte) :=
  pack_instruction OP_LESS address.

(** An IR entry is the tuple [(op, arg)] that [full_asm] appends. *)
Definition ir_entry : Type := string * Z.

(** The [if op == ... elif ...] chain of [asm]: the word that one IR
    entry adds to the bytecode. *)
Definition asm_entry (entry : ir_entry) : result (list byte) :=
  let '(op, arg0) := entry in
  if String.eqb op "load_const" then asm_load_const arg0
  else if String.eqb op "read_value" then asm_read_value arg0
  else if String.eqb op "write_value" then asm_write_value arg0
  else if String.eqb op "less" then asm_less arg0
  else Raise (ValueError (MsgUnknownAsmCommand op)).

(** [for op, *arg in IR: bytecode += ...], with the running [bytecode]. *)
Fixpoint asm_loop (IR : list ir_entry) (bytecode : list byte) : result (list byte) :=
  match IR with
  | [] => Ok bytecode
  | entry :: rest =>
      let? word := asm_entry entry in
      asm_loop rest (bytecode ++ word)
  end.

Definition asm (IR : list ir_entry) : result (list byte) := asm_loop IR [].

(** The body of [for line in text.splitlines()] in [full_asm]:
    [Ok None] for [continue], [Ok (Some entry)] for [IR.append(entry)]. *)
Definition parse_line (line : string) : result (option ir_entry) :=
  let line := strip line in
  let line :=
    if contains "#"%char line
    then strip (nth 0 (split "#"%char line) EmptyString)
    else line in
  if is_empty line then Ok None
  else
    let parts := split ";"%char line in
    let cmd := strip (nth 0 parts EmptyString) in
    if Nat.ltb 1 (length parts) && negb (is_empty (strip (nth 1 parts EmptyString)))
    then
      let arg := strip (nth 1 parts EmptyString) in
      let? value := int arg in
      Ok (Some (cmd, value))
    else Raise (ValueError (MsgArgumentRequired cmd)).

(** The loop over the lines, with the running [IR]. *)
Fixpoint full_asm_lines (lines : list string) (IR : list ir_entry) : result (list ir_entry) :=
  match lines with
  | [] => Ok IR
  | line :: rest =>
      let? parsed := parse_line line in
      match parsed with
      | None => full_asm_lines rest IR
      | Some entry => full_asm_lines rest (IR ++ [entry])
      end
  end.

Definition full_asm (text : string) : result (list byte * list ir_entry) :=
  let text := strip text in
  let? IR := full_asm_lines (splitlines text) [] in
  let? bytecode := asm IR in
  Ok (bytecode, IR).

(** ** uvm_memory.py: the opcode table and the machine state *)

Definition OPCODE_NAMES : gmap Z string :=
  <[14 := "load_const"%string]>
  (<[11 := "read_value"%string]>
  (<[94 := "write_value"%string]>
  (<[69 := "less"%string]> ∅))).

Record UVMMemory : Type := mkUVMMemory {
  data : list Z;
  stack : list Z;
  ip : Z;
  acc : Z
}.

(** [UVMMemory(data_size)] *)
Definition UVMMemory_init (data_size : Z) : UVMMemory :=
  {| data := replicate (Z.to_nat data_size) 0; stack := []; ip := 0; acc := 0 |}.

(** [UVMMemory()] *)
Definition UVMMemory_default : UVMMemory := UVMMemory_init 2048.

Definition set_data (self : UVMMemory) (d : list Z) : UVMMemory :=
  {| data := d; stack := stack self; ip := ip self; acc := acc self |}.

Definition set_stack (self : UVMMemory) (st : list Z) : UVMMemory :=
  {| data := data self; stack := st; ip := ip self; acc := acc self |}.

Definition set_ip (self : UVMMemory) (i : Z) : UVMMemory :=
  {| data := data self; stack := stack self; ip := i; acc := acc self |}.

Definition set_acc (self : UVMMemory) (a : Z) : UVMMemory :=
  {| data := data self; stack := stack self; ip := ip self; acc := a |}.

Definition push (self : UVMMemory) (value : Z) : UVMMemory :=
  set_stack self (stack self ++ [value]).

Definition pop (self : UVMMemory) : result (Z * UVMMemory) :=
  match reverse (stack self) with
  | [] => Raise (IndexError MsgStackEmpty)
  | value :: below => Ok (value, set_stack self (reverse below))
  end.

(** The test [0 <= address < len(self.data)]. *)
Definition in_data (self : UVMMemory) (address : Z) : bool :=
  (0 <=? address) && (address <? Z.of_nat (length (data self))).

Definition read_data (self : UVMMemory) (address : Z) : result Z :=
  if in_data self address then
    match data self !! Z.to_nat address with
    | Some value => Ok value
    | None => Raise (IndexError MsgListIndex)
    end
  else Raise (IndexError (MsgReadAddress address)).

Definition write_data (self : UVMMemory) (address value : Z) : result UVMMemory :=
  if in_data self address
  then Ok (set_data self (<[Z.to_nat address := value]> (data self)))
  else Raise (IndexError (MsgWriteAddress address)).

(** The fields that [dump_memory_to_xml_str] writes into the XML tree. *)
Record memory_dump : Type := mkDump {
  dump_stack : list Z;
  dump_ip : Z;
  dump_acc : Z;
  dump_cells : list (Z * Z)
}.

Definition dump_memory_to_xml_str (memory : UVMMemory) (start_addr end_addr : Z) : memory_dump :=
  let start := Z.max 0 start_addr in
  let end_ := Z.min (end_addr + 1) (Z.of_nat (length (data memory))) in
  {| dump_stack := stack memory;
     dump_ip := ip memory;
     dump_acc := acc memory;
     dump_cells :=
       (fun addr => (addr, default 0 (data memory !! Z.to_nat addr)))
         <$> seqZ start (end_ - start) |}.

(** ** interpreter.py: the decoder *)

Definition decode_instruction (instruction_bytes : list byte) : result (string * Z) :=
  if negb (Nat.eqb (length instruction_bytes) 5)
  then Raise (ValueError (MsgInstructionLength (length instruction_bytes)))
  else
    let value := int_from_bytes instruction_bytes in
    let a := Z.land value 0x7F in
    let b := Z.shiftr value 7 in
    match OPCODE_NAMES !! a with
    | None => Raise (ValueError (MsgUnknownOpcode a))
    | Some cmd_name => Ok (cmd_name, b)
    end.

(** The lines of the execution log. *)
Inductive log_entry : Type :=
| LogStart (instruction_count : nat)
| LogDecodeError (address : Z) (e : exn)
| LogExec (address : Z) (cmd : string) (operand : Z) (acc_before : Z)
| LogUnknownCommand (cmd : string)
| LogFinished (final_ip : Z)
| LogFinalAcc (final_acc : Z)
| LogMemory (first_cells : list Z).

(** How [run_program] ends: it returns the log, or an exception leaves
    it.  Either way the caller's memory object is in the state [memory]. *)
Inductive outcome : Type :=
| Returned (log_messages : list log_entry) (memory : UVMMemory)
| Raised (e : exn) (memory : UVMMemory).

(** How the [while] loop is left: by its condition or a [break], or by
    an exception raised in its body. *)
Inductive loop_exit : Type :=
| Exit (log_messages : list log_entry) (memory : UVMMemory)
| Escape (e : exn) (memory : UVMMemory).

(** The [if cmd == ... elif ...] chain of the loop body. *)
Inductive dispatched : Type :=
| Done (memory : UVMMemory)
| Break (entry : log_entry)
| Escaped (e : exn).

Definition execute (cmd : string) (operand : Z) (memory : UVMMemory) : dispatched :=
  if String.eqb cmd "load_const" then
    Done (set_acc memory operand)
  else if String.eqb cmd "read_value" then
    match read_data memory operand with
    | Ok value => Done (set_acc memory value)
    | Raise e => Escaped e
    end
  else if String.eqb cmd "write_value" then
    match write_data memory operand (acc memory) with
    | Ok memory' => Done memory'
    | Raise e => Escaped e
    end
  else if String.eqb cmd "less" then
    match read_data memory operand with
    | Ok lhs =>
        let rhs := acc memory in
        let result := if lhs <? rhs then 1 else 0 in
        match write_data memory operand result with
        | Ok memory' => Done memory'
        | Raise e => Escaped e
        end
    | Raise e => Escaped e
    end
  else Break (LogUnknownCommand cmd).

(** [while memory.ip < len(instructions)]; [None] when [fuel] tests of
    the condition did not leave the loop. *)
Fixpoint while_loop (fuel : nat) (instructions : list (list byte))
    (memory : UVMMemory) (log_messages : list log_entry) : option loop_exit :=
  match fuel with
  | O => None
  | S fuel' =>
      if ip memory <? Z.of_nat (length instructions) then
        match getitem instructions (ip memory) with
        | None => Some (Escape (IndexError MsgListIndex) memory)
        | Some instruction_bytes =>
            let current_ip := ip memory in
            match decode_instruction instruction_bytes with
            | Raise e =>
                Some (Exit (log_messages ++ [LogDecodeError (ip memory) e]) memory)
            | Ok (cmd, operand) =>
                let log_messages :=
                  log_messages ++ [LogExec current_ip cmd operand (acc memory)] in
                let new_ip := current_ip + 1 in
                match execute cmd operand memory with
                | Done memory' =>
                    while_loop fuel' instructions (set_ip memory' new_ip) log_messages
                | Break entry => Some (Exit (log_messages ++ [entry]) memory)
                | Escaped e => Some (Escape e memory)
                end
            end
        end
      else Some (Exit log_messages memory)
  end.

(** [[bytecode[i:i + 5] for i in range(0, len(bytecode), 5)]] *)
Definition split_instructions (bytecode : list byte) : list (list byte) :=
  (fun i => slice bytecode i (i + 5)) <$> range_step (length bytecode) 5.

(** One more than the number of iterations the loop can make. *)
Definition loop_fuel (instructions : list (list byte)) (memory : UVMMemory) : nat :=
  S (Z.to_nat (Z.of_nat (length instructions) - ip memory)).

(** The three lines appended after the loop. *)
Definition summary (memory : UVMMemory) : list log_entry :=
  [LogFinished (ip memory); LogFinalAcc (acc memory); LogMemory (take 16 (data memory))].

Definition run_program (bytecode : list byte) (memory : UVMMemory) : option outcome :=
  let instructions := split_instructions bytecode in
  let log_messages := [LogStart (length instructions)] in
  match while_loop (loop_fuel instructions memory) instructions memory log_messages with
  | None => None
  | Some (Exit log_messages memory) => Some (Returned (log_messages ++ summary memory) memory)
  | Some (Escape e memory) => Some (Raised e memory)
  end.

(** ** core_runner.py *)

Definition assemble_source (source : string) : result (list byte * list ir_entry) :=
  full_asm source.

(** The text returned by [run_uvm_source]: the warning, the assembly
    error, or the three parts of the report.  [log_text] is the log of
    [run_program], or the exception caught around it. *)
Inductive uvm_output : Type :=
| WarnEmpty
| AsmError (e : exn)
| Report (hex_bytes : list byte) (log_text : list log_entry + exn) (xml_dump : memory_dump).

Definition run_uvm_source (source : string) : option uvm_output :=
  let source := strip source in
  if is_empty source then Some WarnEmpty
  else
    match assemble_source source with
    | Raise e => Some (AsmError e)
    | Ok (bytecode, IR) =>
        let memory := UVMMemory_default in
        match run_program bytecode memory with
        | None => None
        | Some (Returned log_messages memory') =>
            Some (Report bytecode (inl log_messages) (dump_memory_to_xml_str memory' 0 31))
        | Some (Raised e memory') =>
            Some (Report bytecode (inr e) (dump_memory_to_xml_str memory' 0 31))
        end
    end.

(** ** Vocabulary of the properties *)

(** The opcode enumeration, as the table of the data model gives it. *)
Definition opcode_name (a : Z) : option string :=
  if a =? 14 then Some "load_const"%string
  else if a =? 11 then Some "read_value"%string
  else if a =? 94 then Some "write_value"%string
  else if a =? 69 then Some "less"%string
  else None.

(** The five bytes of [value], least significant first. *)
Definition word_bytes (value : Z) : list byte :=
  (fun i => byte_of_Z (Z.land (Z.shiftr value (8 * i)) 0xFF)) <$> [0; 1; 2; 3; 4].

(** The loop is left with [x] when enough fuel is given. *)
Definition runs (instructions : list (list byte)) (m : UVMMemory)
    (log : list log_entry) (x : loop_exit) : Prop :=
  exists fuel, while_loop fuel instructions m log = Some x.

(** What [run_program] makes of the way the loop was left. *)
Definition conclude (x : loop_exit) : outcome :=
  match x with
  | Exit log m => Returned (log ++ summary m) m
  | Escape e m => Raised e m
  end.

(** The same way of leaving the loop, when the log started with [pre]. *)
Definition exit_prepend (pre : list log_entry) (x : loop_exit) : loop_exit :=
  match x with
  | Exit log m => Exit (pre ++ log) m
  | Escape e m => Escape e m
  end.

(** The memory object when the loop is left. *)
Definition exit_memory (x : loop_exit) : UVMMemory :=
  match x with
  | Exit _ m => m
  | Escape _ m => m
  end.

(** Case analysis of one iteration of the loop at the state [m]. *)
Ltac loop_cases m instrs :=
  cbn [while_loop];
  let Hc := fresh "Hc" in
  let Hg := fresh "Hg" in
  let Hd := fresh "Hd" in
  let He := fresh "He" in
  destruct (Z.ltb_spec (ip m) (Z.of_nat (length instrs))) as [Hc|Hc];
  [ destruct (getitem instrs (ip m)) as [?w|] eqn:Hg;
    [ match goal with
      | |- context [ decode_instruction ?w ] =>
          destruct (decode_instruction w) as [[?cmd ?operand]|?e] eqn:Hd;
          [ match goal with
            | |- context [ execute ?c ?o m ] =>
                destruct (execute c o m) as [?m'|?entry|?e] eqn:He
            end
          | ]
      end
    | ]
  | ].

(** The number of instructions whose execution the log records. *)
Definition is_exec (entry : log_entry) : bool :=
  match entry with
  | LogExec _ _ _ _ => true
  | _ => false
  end.

Definition count_exec (log : list log_entry) : nat :=
  length (List.filter is_exec log).

(** The extra line of the log when the loop reaches the fragment. *)
Definition fragment_entry (k : nat) (fragment : list byte) (m1 : UVMMemory) : list log_entry :=
  if ip m1 =? Z.of_nat k
  then [LogDecodeError (ip m1) (ValueError (MsgInstructionLength (length fragment)))]
  else [].

(** The line feed. *)
Definition LF : string := String "010"%char EmptyString.

(** The program [load_const;5], [write_value;0], [load_const;3],
    [less;0], one instruction per line. *)
Definition less_program : string :=
  ("load_const;5" +:+ LF +:+ "write_value;0" +:+ LF +:+ "load_const;3" +:+ LF +:+ "less;0")%string.

(** The numeric opcode of a mnemonic, as the enumeration gives it. *)
Definition mnemonic_opcode (op : string) : option Z :=
  if String.eqb op "load_const" then Some 14
  else if String.eqb op "read_value" then Some 11
  else if String.eqb op "write_value" then Some 94
  else if String.eqb op "less" then Some 69
  else None.

(** A source line after white space and the comment are removed. *)
Definition line_body (line : string) : string :=
  let line := strip line in
  if contains "#"%char line
  then strip (nth 0 (split "#"%char line) EmptyString)
  else line.

(** [word] is the encoding of the IR entry [entry]. *)
Definition encodes (entry : ir_entry) (word : list byte) : Prop :=
  exists a, mnemonic_opcode (fst entry) = Some a /\ pack_instruction a (snd entry) = Ok word.

(** The memory object when [run_program] ends. *)
Definition outcome_memory (o : outcome) : UVMMemory :=
  match o with
  | Returned _ m => m
  | Raised _ m => m
  end.

(** The log line [entry] records the execution of the instruction
    [cmd] with the operand [operand]. *)
Definition records (entry : log_entry) (cmd : string) (operand : Z) : Prop :=
  exists address acc_before, entry = LogExec address cmd operand acc_before.

(** Every character of [s] is white space for [str.strip]. *)
Fixpoint all_space (s : string) : bool :=
  match s with
  | EmptyString => true
  | String c s' => isspace c && all_space s'
  end.

(** The windows all decode, and every address they use is below [N]. *)
Definition runnable (N : nat) (instrs : list (list byte)) : Prop :=
  Forall (fun word =>
            exists cmd b,
              decode_instruction word = Ok (cmd, b) /\
              (cmd = "load_const"%string \/ b < Z.of_nat N)) instrs.

(** * Properties *)

Lemma Z_of_byte_range (b : byte) : 0 <= Z_of_byte b < 256.
Proof.
  unfold Z_of_byte. pose proof (Byte.to_N_bounded b). lia.
Qed.

Lemma Z_of_byte_of_Z (z : Z) : Z_of_byte (byte_of_Z z) = z mod 256.
Proof.
  unfold Z_of_byte, byte_of_Z.
  assert (Hr : 0 <= z mod 256 < 256) by (apply Z.mod_pos_bound; lia).
  destruct (Byte.of_N (Z.to_N (z mod 256))) as [b|] eqn:E.
  - apply Byte.to_of_N in E. rewrite E. lia.
  - apply Byte.of_N_None_iff in E. lia.
Qed.

Lemma byte_of_Z_of_byte (b : byte) : byte_of_Z (Z_of_byte b) = b.
Proof.
  unfold byte_of_Z. pose proof (Z_of_byte_range b) as Hr.
  rewrite Z.mod_small by lia. unfold Z_of_byte.
  rewrite N2Z.id, Byte.of_to_N. reflexivity.
Qed.

Lemma little_endian_length (n : nat) (v : Z) : length (little_endian n v) = n.
Proof. revert v. induction n as [|n IH]; intros v; simpl; [|rewrite IH]; reflexivity. Qed.

Lemma int_from_bytes_little_endian (n : nat) (v : Z) :
  0 <= v < 256 ^ Z.of_nat n -> int_from_bytes (little_endian n v) = v.
Proof.
  revert v. induction n as [|n IH]; intros v Hv.
  - simpl in *. lia.
  - cbn [little_endian int_from_bytes]. rewrite Z_of_byte_of_Z.
    rewrite IH.
    + pose proof (Z.div_mod v 256). lia.
    + rewrite Nat2Z.inj_succ, Z.pow_succ_r in Hv by lia.
      split; [apply Z.div_pos; lia|].
      apply Z.div_lt_upper_bound; lia.
Qed.

(** ** The instruction word *)

Lemma OPCODE_NAMES_lookup (a : Z) : OPCODE_NAMES !! a = opcode_name a.
Proof.
  unfold OPCODE_NAMES, opcode_name.
  repeat (rewrite lookup_insert; case_decide as Hd;
          [subst a; reflexivity
          | apply Z.eqb_neq in Hd; rewrite (Z.eqb_sym a), Hd; clear Hd]).
  apply lookup_empty.
Qed.

Lemma byte_of_Z_mod (z : Z) : byte_of_Z (z mod 256) = byte_of_Z z.
Proof. unfold byte_of_Z. rewrite Z.mod_mod by lia. reflexivity. Qed.

Lemma little_endian_word_bytes (v : Z) : little_endian 5 v = word_bytes v.
Proof.
  unfold word_bytes. cbn [little_endian fmap list_fmap].
  change 0xFF with (Z.ones 8).
  rewrite !Z.land_ones, !byte_of_Z_mod by lia.
  rewrite !Z.shiftr_div_pow2 by lia.
  rewrite !Z.div_div by lia.
  rewrite Z.div_1_r. reflexivity.
Qed.

Section Fields.
Variables a b : Z.
Hypothesis Ha : 0 <= a < 128.
Hypothesis Hb : 0 <= b.

Lemma field_a : Z.land (Z.lor a (Z.shiftl b 7)) 0x7F = a.
Proof.
  change 0x7F with (Z.ones 7).
  rewrite Z.land_lor_distr_l, !Z.land_ones by lia.
  rewrite Z.shiftl_mul_pow2 by lia.
  rewrite Z.mod_mul by lia. rewrite Z.lor_0_r.
  apply Z.mod_small. lia.
Qed.

Lemma field_b : Z.shiftr (Z.lor a (Z.shiftl b 7)) 7 = b.
Proof.
  rewrite Z.shiftr_lor, Z.shiftr_shiftl_l by lia.
  rewrite Z.shiftr_div_pow2 by lia.
  rewrite Z.div_small by lia.
  rewrite Z.sub_diag, Z.shiftl_0_r. apply Z.lor_0_l.
Qed.

Lemma word_value : Z.lor a (Z.shiftl b 7) = a + 128 * b.
Proof.
  pose proof field_a as Hfa. pose proof field_b as Hfb.
  change 0x7F with (Z.ones 7) in Hfa.
  rewrite Z.land_ones in Hfa by lia.
  rewrite Z.shiftr_div_pow2 in Hfb by lia.
  pose proof (Z.div_mod (Z.lor a (Z.shiftl b 7)) (2 ^ 7)) as Hdm.
  change (2 ^ 7) with 128 in *. lia.
Qed.
End Fields.

Lemma pack_instruction_in_range (a b : Z) :
  0 <= a < 128 -> 0 <= b < 2 ^ 26 ->
  pack_instruction a b = Ok (little_endian 5 (Z.lor a (Z.shiftl b 7))).
Proof.
  intros Ha Hb. unfold pack_instruction, int_to_bytes.
  change (Z.shiftl 1 7) with 128. change (Z.shiftl 1 26) with (2 ^ 26).
  rewrite word_value by lia.
  change (256 ^ Z.of_nat 5) with (2 ^ 40).
  assert (H26 : 2 ^ 26 = 67108864) by reflexivity.
  assert (H40 : 2 ^ 40 = 1099511627776) by reflexivity.
  repeat match goal with
  | |- context [ (?x <? ?y) ] => destruct (Z.ltb_spec x y); try lia
  | |- context [ (?x >=? ?y) ] => rewrite (Z.geb_leb x y)
  | |- context [ (?x <=? ?y) ] => destruct (Z.leb_spec x y); try lia
  end.
  reflexivity.
Qed.

Lemma pack_instruction_out_of_range (a b : Z) :
  ~ (0 <= a < 128 /\ 0 <= b < 2 ^ 26) ->
  exists m, pack_instruction a b = Raise (ValueError m).
Proof.
  intros Hr. unfold pack_instruction.
  change (Z.shiftl 1 7) with 128. change (Z.shiftl 1 26) with (2 ^ 26).
  rewrite !Z.geb_leb.
  destruct (Z.ltb_spec a 0); [eauto|].
  destruct (Z.leb_spec 128 a); [eauto|].
  destruct (Z.ltb_spec b 0); [eauto|].
  destruct (Z.leb_spec (2 ^ 26) b); [eauto|].
  lia.
Qed.

(** C7. [pack_instruction a b] raises its [ValueError] exactly when [a] is
    outside 0..127 or [b] is outside 0..2^26-1; otherwise it returns the
    five little-endian bytes of [a | (b << 7)].  The four byte patterns of
    the built-in tests are produced. *)
Theorem pack_instruction_spec :
  (forall a b : Z,
     match pack_instruction a b with
     | Raise e =>
         (a < 0 \/ 128 <= a \/ b < 0 \/ 2 ^ 26 <= b) /\ exists m, e = ValueError m
     | Ok word =>
         0 <= a < 128 /\ 0 <= b < 2 ^ 26 /\
         word = word_bytes (Z.lor a (Z.shiftl b 7)) /\
         length word = 5%nat /\
         int_from_bytes word = Z.lor a (Z.shiftl b 7)
     end)
  /\ pack_instruction 14 381 = Ok [x8e; xbe; x00; x00; x00]
  /\ pack_instruction 11 435 = Ok [x8b; xd9; x00; x00; x00]
  /\ pack_instruction 94 308 = Ok [x5e; x9a; x00; x00; x00]
  /\ pack_instruction 69 989 = Ok [xc5; xee; x01; x00; x00].
Proof.
  split; [|repeat split; vm_compute; reflexivity].
  intros a b.
  destruct (decide (0 <= a < 128 /\ 0 <= b < 2 ^ 26)) as [[Ha Hb]|Hn].
  - rewrite pack_instruction_in_range by assumption.
    split; [assumption|]. split; [assumption|].
    split; [|split].
    + apply little_endian_word_bytes.
    + apply little_endian_length.
    + apply int_from_bytes_little_endian.
      rewrite word_value by lia. change (256 ^ Z.of_nat 5) with (2 ^ 40).
      assert (2 ^ 26 = 67108864) by reflexivity.
      assert (2 ^ 40 = 1099511627776) by reflexivity. lia.
  - destruct (pack_instruction_out_of_range a b Hn) as [m Hm]. rewrite Hm.
    split; [lia | eauto].
Qed.

Lemma decode_pack (a b : Z) :
  0 <= a < 128 -> 0 <= b < 2 ^ 26 ->
  decode_instruction (little_endian 5 (Z.lor a (Z.shiftl b 7))) =
    match opcode_name a with
    | Some cmd => Ok (cmd, b)
    | None => Raise (ValueError (MsgUnknownOpcode a))
    end.
Proof.
  intros Ha Hb. unfold decode_instruction.
  rewrite little_endian_length. cbn [Nat.eqb negb].
  rewrite int_from_bytes_little_endian.
  - rewrite field_a, field_b, OPCODE_NAMES_lookup by lia. reflexivity.
  - rewrite word_value by lia. change (256 ^ Z.of_nat 5) with (2 ^ 40).
    assert (2 ^ 26 = 67108864) by reflexivity.
    assert (2 ^ 40 = 1099511627776) by reflexivity. lia.
Qed.

(** C2, as the code has it.  For [a] in 0..127 and [b] in 0..2^26-1 the
    word of [pack_instruction a b] exists; decoding it gives back
    [(name, b)] when [a] is one of the four opcodes 14, 11, 94, 69 with
    that name, and raises the unknown-opcode [ValueError] for [a]
    otherwise. *)
Theorem decode_pack_roundtrip (a b : Z) :
  0 <= a < 128 -> 0 <= b < 2 ^ 26 ->
  exists word,
    pack_instruction a b = Ok word /\
    decode_instruction word =
      match opcode_name a with
      | Some cmd => Ok (cmd, b)
      | None => Raise (ValueError (MsgUnknownOpcode a))
      end.
Proof.
  intros Ha Hb. eexists. split.
  - apply pack_instruction_in_range; assumption.
  - apply decode_pack; assumption.
Qed.

Lemma decode_pack_roundtrip_witness :
  exists word,
    pack_instruction 14 381 = Ok word /\
    decode_instruction word = Ok ("load_const"%string, 381).
Proof.
  apply (decode_pack_roundtrip 14 381); [lia | split; [lia | reflexivity]].
Defined.

(** C2 as stated fails at opcode 1: the word is produced and its decoding
    raises. *)
Lemma decode_pack_unknown_opcode :
  0 <= 1 < 128 /\ 0 <= 0 < 2 ^ 26 /\
  pack_instruction 1 0 = Ok [x01; x00; x00; x00; x00] /\
  decode_instruction [x01; x00; x00; x00; x00] = Raise (ValueError (MsgUnknownOpcode 1)).
Proof.
  repeat split; try lia; vm_compute; reflexivity.
Qed.

(** ** Data memory and the instructions *)

Lemma in_data_spec (m : UVMMemory) (address : Z) :
  in_data m address = true <-> 0 <= address < Z.of_nat (length (data m)).
Proof. unfold in_data. rewrite andb_true_iff, Z.leb_le, Z.ltb_lt. reflexivity. Qed.

Lemma in_data_lookup (m : UVMMemory) (address : Z) :
  in_data m address = true -> exists value, data m !! Z.to_nat address = Some value.
Proof.
  intros H%in_data_spec. apply lookup_lt_is_Some. lia.
Qed.

Lemma read_data_in_range (m : UVMMemory) (address value : Z) :
  in_data m address = true -> data m !! Z.to_nat address = Some value ->
  read_data m address = Ok value.
Proof. intros Hin Hl. unfold read_data. rewrite Hin, Hl. reflexivity. Qed.

Lemma read_data_out_of_range (m : UVMMemory) (address : Z) :
  in_data m address = false ->
  read_data m address = Raise (IndexError (MsgReadAddress address)).
Proof. intros Hin. unfold read_data. rewrite Hin. reflexivity. Qed.

Lemma write_data_out_of_range (m : UVMMemory) (address value : Z) :
  in_data m address = false ->
  write_data m address value = Raise (IndexError (MsgWriteAddress address)).
Proof. intros Hin. unfold write_data. rewrite Hin. reflexivity. Qed.

Lemma execute_done_stack (cmd : string) (operand : Z) (m m' : UVMMemory) :
  execute cmd operand m = Done m' -> stack m' = stack m.
Proof.
  unfold execute, read_data, write_data.
  repeat match goal with
  | |- context [ if ?c then _ else _ ] => destruct c
  | |- context [ match ?l !! ?i with _ => _ end ] => destruct (l !! i)
  end; intros H; inversion H; reflexivity.
Qed.

Lemma execute_done_length (cmd : string) (operand : Z) (m m' : UVMMemory) :
  execute cmd operand m = Done m' -> length (data m') = length (data m).
Proof.
  unfold execute, read_data, write_data.
  repeat match goal with
  | |- context [ if ?c then _ else _ ] => destruct c
  | |- context [ match ?l !! ?i with _ => _ end ] => destruct (l !! i)
  end; intros H; inversion H; cbn; rewrite ?length_insert; reflexivity.
Qed.

(** C6. For an address [B] inside the data memory, [less] stores into
    [memory[B]] the value 1 when the old [memory[B]] is strictly below
    the accumulator and 0 otherwise; the accumulator, the stack, the
    program counter and the size of the memory are as before. *)
Theorem less_compares_memory_with_acc (m : UVMMemory) (B : Z) :
  0 <= B < Z.of_nat (length (data m)) ->
  exists lhs m',
    data m !! Z.to_nat B = Some lhs /\
    execute "less" B m = Done m' /\
    data m' !! Z.to_nat B = Some (if decide (lhs < acc m) then 1 else 0) /\
    data m' = <[Z.to_nat B := if decide (lhs < acc m) then 1 else 0]> (data m) /\
    acc m' = acc m /\ ip m' = ip m /\ stack m' = stack m.
Proof.
  intros HB. pose proof (proj2 (in_data_spec m B) HB) as Hin.
  destruct (in_data_lookup m B Hin) as [lhs Hl].
  exists lhs. eexists. split; [exact Hl|].
  unfold execute. cbn [String.eqb Ascii.eqb Bool.eqb].
  rewrite (read_data_in_range m B lhs Hin Hl).
  unfold write_data. rewrite Hin.
  assert (Hc : (if lhs <? acc m then 1 else 0) = if decide (lhs < acc m) then 1 else 0).
  { destruct (Z.ltb_spec lhs (acc m)); case_decide; (reflexivity || lia). }
  rewrite Hc. split; [reflexivity|]. cbn.
  split; [|repeat split; reflexivity].
  apply list_lookup_insert_eq. lia.
Qed.

Lemma less_compares_memory_with_acc_witness :
  exists lhs m',
    data (set_acc UVMMemory_default 3) !! Z.to_nat 0 = Some lhs /\
    execute "less" 0 (set_acc UVMMemory_default 3) = Done m' /\
    data m' !! Z.to_nat 0 = Some (if decide (lhs < 3) then 1 else 0) /\
    data m' = <[Z.to_nat 0 := if decide (lhs < 3) then 1 else 0]> (data UVMMemory_default) /\
    acc m' = 3 /\ ip m' = 0 /\ stack m' = [].
Proof.
  apply (less_compares_memory_with_acc (set_acc UVMMemory_default 3) 0).
  vm_compute. split; [discriminate | reflexivity].
Defined.

Lemma execute_done_frame (cmd : string) (B : Z) (m m' : UVMMemory) :
  execute cmd B m = Done m' ->
  (cmd = "load_const"%string \/ cmd = "read_value"%string -> data m' = data m) /\
  (forall i : nat, i <> Z.to_nat B -> data m' !! i = data m !! i).
Proof.
  unfold execute, read_data, write_data.
  destruct (String.eqb_spec cmd "load_const") as [->|Hlc].
  { intros H; inversion H; subst m'. split; reflexivity. }
  destruct (String.eqb_spec cmd "read_value") as [->|Hrv].
  { destruct (in_data m B); [|discriminate].
    destruct (data m !! Z.to_nat B); [|discriminate].
    intros H; inversion H; subst m'. split; reflexivity. }
  assert (Hother : forall v m1, Done (set_data m (<[Z.to_nat B := v]> (data m))) = Done m1 ->
            (cmd = "load_const"%string \/ cmd = "read_value"%string -> data m1 = data m) /\
            (forall i : nat, i <> Z.to_nat B -> data m1 !! i = data m !! i)).
  { intros v m1 H; inversion H; subst m1. split.
    - intros [Hc|Hc]; contradiction.
    - intros i Hi. cbn. apply list_lookup_insert_ne. congruence. }
  destruct (String.eqb_spec cmd "write_value") as [->|Hwv].
  { destruct (in_data m B); [apply Hother | discriminate]. }
  destruct (String.eqb_spec cmd "less") as [->|Hls]; [|discriminate].
  destruct (in_data m B); [|discriminate].
  destruct (data m !! Z.to_nat B); [apply Hother | discriminate].
Qed.

Lemma execute_in_range (cmd : string) (B : Z) (m : UVMMemory) :
  cmd = "load_const"%string \/
  (cmd = "read_value"%string \/ cmd = "write_value"%string \/ cmd = "less"%string) /\
  0 <= B < Z.of_nat (length (data m)) ->
  exists m', execute cmd B m = Done m'.
Proof.
  intros [->|[Hc HB]].
  - eexists. reflexivity.
  - pose proof (proj2 (in_data_spec m B) HB) as Hin.
    destruct (in_data_lookup m B Hin) as [v Hv].
    destruct Hc as [->|[->| ->]]; unfold execute; cbn [String.eqb Ascii.eqb Bool.eqb];
      rewrite ?(read_data_in_range m B v Hin Hv); unfold write_data; rewrite ?Hin;
      eexists; reflexivity.
Qed.

(** C10. Whatever instruction executes, it leaves the stack and the
    size of the data memory unchanged; [load_const] and [read_value]
    leave every cell unchanged, and every instruction leaves the cells
    other than [memory[B]] unchanged.  [load_const] always executes, and
    [read_value], [write_value] and [less] execute when the address [B]
    is inside the data memory. *)
Theorem execute_frame (cmd : string) (B : Z) (m : UVMMemory) :
  (forall m',
     execute cmd B m = Done m' ->
     stack m' = stack m /\
     length (data m') = length (data m) /\
     (cmd = "load_const"%string \/ cmd = "read_value"%string -> data m' = data m) /\
     (forall i : nat, i <> Z.to_nat B -> data m' !! i = data m !! i))
  /\
  (cmd = "load_const"%string \/
   (cmd = "read_value"%string \/ cmd = "write_value"%string \/ cmd = "less"%string) /\
   0 <= B < Z.of_nat (length (data m)) ->
   exists m', execute cmd B m = Done m').
Proof.
  split.
  - intros m' He.
    split; [exact (execute_done_stack _ _ _ _ He)|].
    split; [exact (execute_done_length _ _ _ _ He)|].
    exact (execute_done_frame _ _ _ _ He).
  - apply execute_in_range.
Qed.

Lemma execute_frame_witness :
  exists m',
    execute "write_value" 2 (set_acc UVMMemory_default 7) = Done m' /\
    stack m' = [] /\
    length (data m') = 2048%nat /\
    (forall i : nat, i <> 2%nat -> data m' !! i = data UVMMemory_default !! i).
Proof.
  destruct (execute_frame "write_value" 2 (set_acc UVMMemory_default 7)) as [Hframe Hrun].
  destruct Hrun as [m' He].
  { right. split; [right; left; reflexivity|].
    vm_compute. split; [discriminate | reflexivity]. }
  exists m'. destruct (Hframe m' He) as (Hs & Hl & _ & Ho).
  repeat split; assumption.
Defined.

(** ** The instruction windows *)

Lemma split_instructions_length (bytecode : list byte) :
  length (split_instructions bytecode) = ((length bytecode + 4) / 5)%nat.
Proof.
  unfold split_instructions, range_step.
  rewrite !length_fmap, length_seq. f_equal. lia.
Qed.

Lemma split_instructions_word (word rest : list byte) :
  length word = 5%nat ->
  split_instructions (word ++ rest) = word :: split_instructions rest.
Proof.
  intros Hw. unfold split_instructions, range_step.
  rewrite length_app, Hw.
  replace ((5 + length rest + 5 - 1) / 5)%nat with (S ((length rest + 5 - 1) / 5)).
  2:{ replace (5 + length rest + 5 - 1)%nat with ((length rest + 5 - 1) + 1 * 5)%nat by lia.
      rewrite Nat.div_add by lia. lia. }
  cbn [seq fmap list_fmap]. f_equal.
  - unfold slice. cbn [Nat.mul Nat.add Nat.sub drop].
    apply take_app_length'. symmetry. exact Hw.
  - rewrite <- fmap_S_seq, <- !list_fmap_compose.
    apply list_fmap_ext. intros _ k _. cbn [compose].
    unfold slice.
    replace (S k * 5 + 5 - S k * 5)%nat with 5%nat by lia.
    replace (k * 5 + 5 - k * 5)%nat with 5%nat by lia.
    f_equal. replace (S k * 5)%nat with (length word + k * 5)%nat by lia.
    apply drop_app_add.
Qed.

Lemma split_instructions_fragment (fragment : list byte) :
  (0 < length fragment <= 5)%nat -> split_instructions fragment = [fragment].
Proof.
  intros Hf. unfold split_instructions, range_step.
  replace ((length fragment + 5 - 1) / 5)%nat with 1%nat.
  - cbn [seq fmap list_fmap]. unfold slice.
    change (0 * 5)%nat with 0%nat. rewrite drop_0.
    rewrite take_ge by (cbn; lia). reflexivity.
  - apply Nat.div_unique with (r := (length fragment - 1)%nat); lia.
Qed.

Lemma split_instructions_app (k : nat) (bytecode rest : list byte) :
  length bytecode = (5 * k)%nat ->
  split_instructions (bytecode ++ rest) =
    split_instructions bytecode ++ split_instructions rest.
Proof.
  revert bytecode. induction k as [|k IH]; intros bytecode Hl.
  - destruct bytecode; [reflexivity | simpl in Hl; lia].
  - rewrite <- (take_drop 5 bytecode), <- app_assoc.
    assert (Hw : length (take 5 bytecode) = 5%nat) by (rewrite length_take; lia).
    rewrite (split_instructions_word (take 5 bytecode) (drop 5 bytecode ++ rest) Hw).
    rewrite (split_instructions_word (take 5 bytecode) (drop 5 bytecode) Hw).
    rewrite IH by (rewrite length_drop; lia). reflexivity.
Qed.

Lemma split_instructions_full (k : nat) (bytecode : list byte) :
  length bytecode = (5 * k)%nat -> length (split_instructions bytecode) = k.
Proof.
  intros Hl. rewrite split_instructions_length, Hl.
  symmetry. apply Nat.div_unique with (r := 4%nat); lia.
Qed.

(** ** Python indexing *)

Lemma getitem_app_l {A : Type} (l l' : list A) (i : Z) :
  0 <= i < Z.of_nat (length l) -> getitem (l ++ l') i = getitem l i.
Proof.
  intros Hi. unfold getitem.
  destruct (Z.leb_spec 0 i); [|lia].
  apply lookup_app_l. lia.
Qed.

Lemma getitem_middle {A : Type} (l l' : list A) (x : A) :
  getitem (l ++ x :: l') (Z.of_nat (length l)) = Some x.
Proof.
  unfold getitem. destruct (Z.leb_spec 0 (Z.of_nat (length l))); [|lia].
  apply list_lookup_middle. lia.
Qed.

(** ** The interpreter loop *)

Lemma execute_done_ip (cmd : string) (operand : Z) (m m' : UVMMemory) :
  execute cmd operand m = Done m' -> ip m' = ip m.
Proof.
  unfold execute, read_data, write_data.
  repeat match goal with
  | |- context [ if ?c then _ else _ ] => destruct c
  | |- context [ match ?l !! ?i with _ => _ end ] => destruct (l !! i)
  end; intros H; inversion H; reflexivity.
Qed.

Lemma run_program_conclude (bytecode : list byte) (m : UVMMemory) :
  run_program bytecode m =
    conclude <$> while_loop (loop_fuel (split_instructions bytecode) m)
                   (split_instructions bytecode) m
                   [LogStart (length (split_instructions bytecode))].
Proof.
  unfold run_program.
  destruct (while_loop _ _ _ _) as [[log m1|e m1]|]; reflexivity.
Qed.

Lemma while_loop_log (fuel : nat) (instrs : list (list byte)) (m : UVMMemory)
    (pre log : list log_entry) :
  while_loop fuel instrs m (pre ++ log) = exit_prepend pre <$> while_loop fuel instrs m log.
Proof.
  revert m log. induction fuel as [|fuel IH]; intros m log; [reflexivity|].
  loop_cases m instrs; cbn [fmap option_fmap option_map exit_prepend];
    rewrite <- ?app_assoc; try reflexivity.
  apply IH.
Qed.

Lemma while_loop_fuel_mono (fuel fuel' : nat) (instrs : list (list byte))
    (m : UVMMemory) (log : list log_entry) (x : loop_exit) :
  while_loop fuel instrs m log = Some x -> (fuel <= fuel')%nat ->
  while_loop fuel' instrs m log = Some x.
Proof.
  revert fuel' m log. induction fuel as [|fuel IH]; intros fuel' m log; [discriminate|].
  intros Hrun Hle. destruct fuel' as [|fuel']; [lia|].
  revert Hrun. loop_cases m instrs; try (intros H; exact H).
  intros H. apply IH; [exact H | lia].
Qed.

Lemma while_loop_total (fuel : nat) (instrs : list (list byte))
    (m : UVMMemory) (log : list log_entry) :
  (0 < fuel)%nat -> Z.of_nat (length instrs) - ip m < Z.of_nat fuel ->
  exists x, while_loop fuel instrs m log = Some x.
Proof.
  revert m log. induction fuel as [|fuel IH]; intros m log Hpos Hf.
  - lia.
  - loop_cases m instrs; try (eexists; reflexivity).
    apply execute_done_ip in He. apply IH; cbn [set_ip ip]; lia.
Qed.

Lemma runs_deterministic (instrs : list (list byte)) (m : UVMMemory)
    (log : list log_entry) (x y : loop_exit) :
  runs instrs m log x -> runs instrs m log y -> x = y.
Proof.
  intros [f1 H1] [f2 H2].
  apply (while_loop_fuel_mono f1 (Nat.max f1 f2)) in H1; [|lia].
  apply (while_loop_fuel_mono f2 (Nat.max f1 f2)) in H2; [|lia].
  congruence.
Qed.

Lemma runs_log (instrs : list (list byte)) (m : UVMMemory)
    (pre log : list log_entry) (x : loop_exit) :
  runs instrs m log x -> runs instrs m (pre ++ log) (exit_prepend pre x).
Proof.
  intros [fuel H]. exists fuel. rewrite while_loop_log, H. reflexivity.
Qed.

(** [run_program] always ends, and ends as the loop does. *)
Lemma run_program_total (bytecode : list byte) (m : UVMMemory) :
  exists x,
    runs (split_instructions bytecode) m [] x /\
    run_program bytecode m =
      Some (conclude (exit_prepend [LogStart (length (split_instructions bytecode))] x)).
Proof.
  destruct (while_loop_total (loop_fuel (split_instructions bytecode) m)
              (split_instructions bytecode) m []) as [x Hx].
  { unfold loop_fuel. lia. }
  { unfold loop_fuel. lia. }
  exists x. split; [eexists; exact Hx|].
  rewrite run_program_conclude.
  rewrite <- (app_nil_r [LogStart _]), while_loop_log, Hx. reflexivity.
Qed.

Lemma run_program_runs (bytecode : list byte) (m : UVMMemory) (x : loop_exit) :
  runs (split_instructions bytecode) m [] x ->
  run_program bytecode m =
    Some (conclude (exit_prepend [LogStart (length (split_instructions bytecode))] x)).
Proof.
  intros Hx. destruct (run_program_total bytecode m) as (y & Hy & ->).
  rewrite (runs_deterministic _ _ _ _ _ Hx Hy). reflexivity.
Qed.

(** *** Running a program that has been extended *)

Lemma while_loop_escape_ip (fuel : nat) (instrs : list (list byte))
    (m : UVMMemory) (log : list log_entry) (e : exn) (m1 : UVMMemory) :
  while_loop fuel instrs m log = Some (Escape e m1) ->
  ip m1 < Z.of_nat (length instrs).
Proof.
  revert m log. induction fuel as [|fuel IH]; intros m log; [discriminate|].
  loop_cases m instrs; intros H; try discriminate H;
    try (inversion H; subst; assumption).
  exact (IH _ _ H).
Qed.

Lemma while_loop_app_early (fuel : nat) (instrs extra : list (list byte))
    (m : UVMMemory) (log : list log_entry) (x : loop_exit) :
  0 <= ip m ->
  while_loop fuel instrs m log = Some x ->
  ip (exit_memory x) < Z.of_nat (length instrs) ->
  while_loop fuel (instrs ++ extra) m log = Some x.
Proof.
  revert m log. induction fuel as [|fuel IH]; intros m log Hip; [discriminate|].
  cbn [while_loop]. rewrite length_app, Nat2Z.inj_add.
  destruct (Z.ltb_spec (ip m) (Z.of_nat (length instrs))) as [Hc|Hc].
  - destruct (Z.ltb_spec (ip m) (Z.of_nat (length instrs) + Z.of_nat (length extra)))
      as [_|Hc2]; [|lia].
    rewrite getitem_app_l by lia.
    destruct (getitem instrs (ip m)) as [w|]; [|intros H _; exact H].
    destruct (decode_instruction w) as [[cmd operand]|e]; [|intros H _; exact H].
    destruct (execute cmd operand m) as [m'|entry|e] eqn:He; try (intros H _; exact H).
    apply execute_done_ip in He. apply IH. cbn [set_ip ip]. lia.
  - intros H Hx. inversion H; subst x. cbn [exit_memory] in Hx. lia.
Qed.

Lemma runs_app_continue (fuel : nat) (instrs extra : list (list byte))
    (m : UVMMemory) (log body : list log_entry) (m1 : UVMMemory) (y : loop_exit) :
  0 <= ip m ->
  while_loop fuel instrs m log = Some (Exit body m1) ->
  Z.of_nat (length instrs) <= ip m1 ->
  runs (instrs ++ extra) m1 body y ->
  runs (instrs ++ extra) m log y.
Proof.
  revert m log. induction fuel as [|fuel IH]; intros m log Hip; [discriminate|].
  cbn [while_loop].
  destruct (Z.ltb_spec (ip m) (Z.of_nat (length instrs))) as [Hc|Hc].
  - destruct (getitem instrs (ip m)) as [w|] eqn:Hg; [|discriminate].
    destruct (decode_instruction w) as [[cmd operand]|e] eqn:Hd.
    + destruct (execute cmd operand m) as [m'|entry|e] eqn:He.
      * intros Hrun Hend Hy.
        pose proof (execute_done_ip _ _ _ _ He) as Hip'.
        assert (Hnext : 0 <= ip (set_ip m' (ip m + 1))) by (cbn [set_ip ip]; lia).
        destruct (IH _ _ Hnext Hrun Hend Hy) as [f2 Hf2].
        exists (S f2). cbn [while_loop].
        rewrite length_app, Nat2Z.inj_add.
        destruct (Z.ltb_spec (ip m) (Z.of_nat (length instrs) + Z.of_nat (length extra)))
          as [_|Hc2]; [|lia].
        rewrite getitem_app_l, Hg, Hd, He by lia. exact Hf2.
      * intros H Hend. inversion H; subst. lia.
      * discriminate.
    + intros H Hend. inversion H; subst. lia.
  - intros H Hend Hy. inversion H; subst. exact Hy.
Qed.

Lemma while_loop_ip_mono (fuel : nat) (instrs : list (list byte))
    (m : UVMMemory) (log : list log_entry) (x : loop_exit) :
  while_loop fuel instrs m log = Some x -> ip m <= ip (exit_memory x).
Proof.
  revert m log. induction fuel as [|fuel IH]; intros m log; [discriminate|].
  loop_cases m instrs; intros H; try (inversion H; subst; cbn [exit_memory]; lia).
  apply IH in H. apply execute_done_ip in He. cbn [set_ip ip] in H. lia.
Qed.

Lemma count_exec_app (log log' : list log_entry) :
  count_exec (log ++ log') = (count_exec log + count_exec log')%nat.
Proof. unfold count_exec. rewrite List.filter_app, length_app. reflexivity. Qed.

Lemma execute_break (cmd : string) (operand : Z) (m : UVMMemory) (entry : log_entry) :
  execute cmd operand m = Break entry -> entry = LogUnknownCommand cmd.
Proof.
  unfold execute, read_data, write_data.
  repeat match goal with
  | |- context [ if ?c then _ else _ ] => destruct c
  | |- context [ match ?l !! ?i with _ => _ end ] => destruct (l !! i)
  end; intros H; inversion H; reflexivity.
Qed.

Lemma while_loop_count_exec (fuel : nat) (instrs : list (list byte))
    (m : UVMMemory) (log body : list log_entry) (m1 : UVMMemory) :
  while_loop fuel instrs m log = Some (Exit body m1) ->
  Z.of_nat (count_exec body) <=
    Z.of_nat (count_exec log) + Z.max 0 (Z.of_nat (length instrs) - ip m).
Proof.
  revert m log. induction fuel as [|fuel IH]; intros m log; [discriminate|].
  loop_cases m instrs; intros H; try discriminate H.
  - apply IH in H. apply execute_done_ip in He.
    rewrite count_exec_app in H. cbn [set_ip ip] in H.
    change (count_exec [LogExec (ip m) cmd operand (acc m)]) with 1%nat in H. lia.
  - apply execute_break in He. inversion H; subst.
    rewrite !count_exec_app. cbn. lia.
  - inversion H; subst. rewrite !count_exec_app. cbn. lia.
  - inversion H; subst. lia.
Qed.

Lemma run_program_returned (bytecode : list byte) (m : UVMMemory)
    (n : nat) (body : list log_entry) (m1 : UVMMemory) :
  run_program bytecode m = Some (Returned (LogStart n :: body ++ summary m1) m1) ->
  runs (split_instructions bytecode) m [] (Exit body m1).
Proof.
  intros Hrun. destruct (run_program_total bytecode m) as (x & Hx & Heq).
  rewrite Heq in Hrun. destruct x as [body' m'|e m']; cbn in Hrun; [|discriminate].
  inversion Hrun as [[Hn Hlog Hm]]. subst m'.
  apply app_inv_tail in Hlog. subst body'. exact Hx.
Qed.

(** A program whose first [k] words ran to their end continues, once
    extended, from the state they left. *)
Lemma run_program_extend (k : nat) (pre rest : list byte) (m0 : UVMMemory)
    (body : list log_entry) (m1 : UVMMemory) (y : loop_exit) :
  length pre = (5 * k)%nat -> 0 <= ip m0 ->
  run_program pre m0 = Some (Returned (LogStart k :: body ++ summary m1) m1) ->
  Z.of_nat k <= ip m1 ->
  runs (split_instructions (pre ++ rest)) m1 body y ->
  run_program (pre ++ rest) m0 =
    Some (conclude (exit_prepend [LogStart (length (split_instructions (pre ++ rest)))] y)).
Proof.
  intros Hlen Hip Hrun Hend Hy.
  apply run_program_returned in Hrun. destruct Hrun as [fuel Hfuel].
  apply run_program_runs.
  rewrite (split_instructions_app k) in * by exact Hlen.
  apply (runs_app_continue fuel _ _ _ _ body m1); try assumption.
  rewrite (split_instructions_full k) by exact Hlen. exact Hend.
Qed.

Lemma split_instructions_at (k : nat) (pre word rest : list byte) :
  length pre = (5 * k)%nat -> length word = 5%nat ->
  getitem (split_instructions (pre ++ word ++ rest)) (Z.of_nat k) = Some word /\
  Z.of_nat k < Z.of_nat (length (split_instructions (pre ++ word ++ rest))).
Proof.
  intros Hpre Hword.
  rewrite (split_instructions_app k) by exact Hpre.
  rewrite split_instructions_word by exact Hword.
  pose proof (split_instructions_full k pre Hpre) as Hk.
  split.
  - replace (Z.of_nat k) with (Z.of_nat (length (split_instructions pre)))
      by (rewrite Hk; reflexivity).
    apply getitem_middle.
  - rewrite length_app. cbn [length]. lia.
Qed.

(** ** Errors while the program runs *)

Lemma decode_unknown_opcode (word : list byte) :
  length word = 5%nat ->
  opcode_name (Z.land (int_from_bytes word) 0x7F) = None ->
  decode_instruction word =
    Raise (ValueError (MsgUnknownOpcode (Z.land (int_from_bytes word) 0x7F))).
Proof.
  intros Hlen Hop. unfold decode_instruction.
  rewrite Hlen. cbn [Nat.eqb negb]. rewrite OPCODE_NAMES_lookup, Hop. reflexivity.
Qed.

Lemma opcode_name_none (a : Z) :
  a <> 14 -> a <> 11 -> a <> 94 -> a <> 69 -> opcode_name a = None.
Proof.
  intros H14 H11 H94 H69. unfold opcode_name.
  repeat match goal with
  | |- context [ ?x =? ?y ] => destruct (Z.eqb_spec x y); [contradiction|]
  end.
  reflexivity.
Qed.

Lemma while_loop_decode_error (fuel : nat) (instrs : list (list byte))
    (m : UVMMemory) (log : list log_entry) (word : list byte) (e : exn) :
  ip m < Z.of_nat (length instrs) ->
  getitem instrs (ip m) = Some word ->
  decode_instruction word = Raise e ->
  while_loop (S fuel) instrs m log = Some (Exit (log ++ [LogDecodeError (ip m) e]) m).
Proof.
  intros Hc Hg Hd. cbn [while_loop].
  destruct (Z.ltb_spec (ip m) (Z.of_nat (length instrs))); [|lia].
  rewrite Hg, Hd. reflexivity.
Qed.

(** C8. A 5-byte word whose low 7 bits are none of 14, 11, 94, 69 is
    refused by [decode_instruction] with the unknown-opcode [ValueError].
    When the loop fetches it, the error line is appended and the loop is
    left with the memory object untouched; so a program whose first [k]
    words ran to their end returns, with such a word next, a log that ends
    in the error line and the summary, and the state those [k] words
    left. *)
Theorem unknown_opcode_halts (word : list byte) :
  length word = 5%nat ->
  Z.land (int_from_bytes word) 0x7F <> 14 ->
  Z.land (int_from_bytes word) 0x7F <> 11 ->
  Z.land (int_from_bytes word) 0x7F <> 94 ->
  Z.land (int_from_bytes word) 0x7F <> 69 ->
  let e := ValueError (MsgUnknownOpcode (Z.land (int_from_bytes word) 0x7F)) in
  decode_instruction word = Raise e /\
  (forall fuel instrs m log,
     ip m < Z.of_nat (length instrs) ->
     getitem instrs (ip m) = Some word ->
     while_loop (S fuel) instrs m log = Some (Exit (log ++ [LogDecodeError (ip m) e]) m)) /\
  (forall (k : nat) pre rest m0 body m1,
     length pre = (5 * k)%nat -> 0 <= ip m0 ->
     run_program pre m0 = Some (Returned (LogStart k :: body ++ summary m1) m1) ->
     ip m1 = Z.of_nat k ->
     run_program (pre ++ word ++ rest) m0 =
       Some (Returned
               (LogStart (length (split_instructions (pre ++ word ++ rest)))
                  :: body ++ [LogDecodeError (Z.of_nat k) e] ++ summary m1)
               m1)).
Proof.
  intros Hlen H14 H11 H94 H69 e.
  assert (Hd : decode_instruction word = Raise e).
  { apply decode_unknown_opcode; [exact Hlen|]. apply opcode_name_none; assumption. }
  split; [exact Hd|]. split.
  - intros fuel instrs m log Hc Hg.
    apply while_loop_decode_error with (word := word); assumption.
  - intros k pre rest m0 body m1 Hpre Hip Hrun Hend.
    destruct (split_instructions_at k pre word rest Hpre Hlen) as [Hg Hc].
    rewrite (run_program_extend k pre (word ++ rest) m0 body m1
               (Exit (body ++ [LogDecodeError (ip m1) e]) m1)); try assumption; try lia.
    + cbn [conclude exit_prepend]. rewrite Hend, <- !app_assoc. reflexivity.
    + exists 1%nat.
      apply while_loop_decode_error with (word := word); rewrite ?Hend; assumption.
Qed.

Lemma unknown_opcode_halts_witness :
  decode_instruction [x01; x00; x00; x00; x00] = Raise (ValueError (MsgUnknownOpcode 1)) /\
  run_program ([x8e; x02; x00; x00; x00] ++ [x01; x00; x00; x00; x00] ++ []) UVMMemory_default =
    Some (Returned
            ([LogStart 2; LogExec 0 "load_const" 5 0;
              LogDecodeError 1 (ValueError (MsgUnknownOpcode 1))]
               ++ summary (set_ip (set_acc UVMMemory_default 5) 1))
            (set_ip (set_acc UVMMemory_default 5) 1)).
Proof.
  destruct (unknown_opcode_halts [x01; x00; x00; x00; x00])
    as (Hd & _ & Hrun); try (vm_compute; congruence).
  split; [exact Hd|].
  apply (Hrun 1%nat [x8e; x02; x00; x00; x00] [] UVMMemory_default
           [LogExec 0 "load_const" 5 0] (set_ip (set_acc UVMMemory_default 5) 1));
    vm_compute; congruence.
Defined.

Lemma execute_out_of_range (cmd : string) (B : Z) (m : UVMMemory) :
  cmd = "read_value"%string \/ cmd = "write_value"%string \/ cmd = "less"%string ->
  ~ (0 <= B < Z.of_nat (length (data m))) ->
  execute cmd B m =
    Escaped (IndexError (if String.eqb cmd "write_value"
                         then MsgWriteAddress B else MsgReadAddress B)).
Proof.
  intros Hcmd HB.
  assert (Hin : in_data m B = false).
  { destruct (in_data m B) eqn:E; [|reflexivity]. apply in_data_spec in E. contradiction. }
  destruct Hcmd as [->|[->| ->]]; unfold execute; cbn [String.eqb Ascii.eqb Bool.eqb].
  - rewrite read_data_out_of_range by exact Hin. reflexivity.
  - rewrite write_data_out_of_range by exact Hin. reflexivity.
  - rewrite read_data_out_of_range by exact Hin. reflexivity.
Qed.

Lemma while_loop_escape (fuel : nat) (instrs : list (list byte))
    (m : UVMMemory) (log : list log_entry) (word : list byte)
    (cmd : string) (B : Z) (e : exn) :
  ip m < Z.of_nat (length instrs) ->
  getitem instrs (ip m) = Some word ->
  decode_instruction word = Ok (cmd, B) ->
  execute cmd B m = Escaped e ->
  while_loop (S fuel) instrs m log = Some (Escape e m).
Proof.
  intros Hc Hg Hd He. cbn [while_loop].
  destruct (Z.ltb_spec (ip m) (Z.of_nat (length instrs))); [|lia].
  rewrite Hg, Hd, He. reflexivity.
Qed.

Lemma run_uvm_source_total (source : string) :
  exists out, run_uvm_source source = Some out.
Proof.
  unfold run_uvm_source.
  destruct (is_empty (strip source)); [eexists; reflexivity|].
  destruct (assemble_source (strip source)) as [[bytecode IR]|e]; [|eexists; reflexivity].
  destruct (run_program_total bytecode UVMMemory_default) as (x & _ & ->).
  destruct x; eexists; reflexivity.
Qed.

(** C1, as the code has it.  When the word at the program counter
    decodes to [read_value], [write_value] or [less] with an address
    outside the data memory, the [IndexError] of [read_data] or
    [write_data] is not caught in the loop: it leaves [run_program], which
    returns no log, and the memory object is as the instructions before
    left it.  [run_uvm_source] catches the exception around
    [run_program], puts it in the place of the log, still dumps the
    memory, and always returns. *)
Theorem out_of_range_access_escapes (word : list byte) (cmd : string) (B : Z) :
  decode_instruction word = Ok (cmd, B) ->
  cmd = "read_value"%string \/ cmd = "write_value"%string \/ cmd = "less"%string ->
  let e := IndexError (if String.eqb cmd "write_value"
                       then MsgWriteAddress B else MsgReadAddress B) in
  (forall fuel instrs m log,
     ip m < Z.of_nat (length instrs) ->
     getitem instrs (ip m) = Some word ->
     ~ (0 <= B < Z.of_nat (length (data m))) ->
     while_loop (S fuel) instrs m log = Some (Escape e m)) /\
  (forall (k : nat) pre rest m0 body m1,
     length pre = (5 * k)%nat -> 0 <= ip m0 ->
     run_program pre m0 = Some (Returned (LogStart k :: body ++ summary m1) m1) ->
     ip m1 = Z.of_nat k ->
     ~ (0 <= B < Z.of_nat (length (data m1))) ->
     run_program (pre ++ word ++ rest) m0 = Some (Raised e m1)) /\
  (forall source bytecode IR e' m1,
     is_empty (strip source) = false ->
     full_asm (strip source) = Ok (bytecode, IR) ->
     run_program bytecode UVMMemory_default = Some (Raised e' m1) ->
     run_uvm_source source =
       Some (Report bytecode (inr e') (dump_memory_to_xml_str m1 0 31))) /\
  (forall source, exists out, run_uvm_source source = Some out).
Proof.
  intros Hd Hcmd e.
  assert (Hlen : length word = 5%nat).
  { unfold decode_instruction in Hd.
    destruct (Nat.eqb_spec (length word) 5); [assumption | discriminate]. }
  split; [|split; [|split]].
  - intros fuel instrs m log Hc Hg HB.
    apply while_loop_escape with (word := word) (cmd := cmd) (B := B); try assumption.
    apply execute_out_of_range; assumption.
  - intros k pre rest m0 body m1 Hpre Hip Hrun Hend HB.
    destruct (split_instructions_at k pre word rest Hpre Hlen) as [Hg Hc].
    rewrite (run_program_extend k pre (word ++ rest) m0 body m1 (Escape e m1));
      try assumption; try lia; [reflexivity|].
    exists 1%nat.
    apply while_loop_escape with (word := word) (cmd := cmd) (B := B);
      rewrite ?Hend; try assumption.
    apply execute_out_of_range; assumption.
  - intros source bytecode IR e' m1 Hne Hasm Hrun.
    unfold run_uvm_source, assemble_source. rewrite Hne, Hasm, Hrun. reflexivity.
  - apply run_uvm_source_total.
Qed.

Lemma out_of_range_access_escapes_witness :
  run_program ([x8e; x02; x00; x00; x00] ++ [x0b; x00; x04; x00; x00] ++ []) UVMMemory_default =
    Some (Raised (IndexError (MsgReadAddress 2048)) (set_ip (set_acc UVMMemory_default 5) 1)).
Proof.
  destruct (out_of_range_access_escapes [x0b; x00; x04; x00; x00] "read_value" 2048)
    as (_ & Hrun & _); [vm_compute; reflexivity | left; reflexivity |].
  apply (Hrun 1%nat [x8e; x02; x00; x00; x00] [] UVMMemory_default
           [LogExec 0 "load_const" 5 0] (set_ip (set_acc UVMMemory_default 5) 1));
    try (vm_compute; congruence).
  vm_compute. intros [_ H]. discriminate H.
Defined.

(** C1 as stated fails for [read_value; 2048] on the default memory of
    2048 cells: [run_program] raises and returns no log. *)
Lemma read_out_of_range_raises :
  full_asm "read_value; 2048" = Ok ([x0b; x00; x04; x00; x00], [("read_value"%string, 2048)]) /\
  run_program [x0b; x00; x04; x00; x00] UVMMemory_default =
    Some (Raised (IndexError (MsgReadAddress 2048)) UVMMemory_default) /\
  ~ (exists log m, run_program [x0b; x00; x04; x00; x00] UVMMemory_default =
                     Some (Returned log m)).
Proof.
  assert (Hrun : run_program [x0b; x00; x04; x00; x00] UVMMemory_default =
                 Some (Raised (IndexError (MsgReadAddress 2048)) UVMMemory_default))
    by (vm_compute; reflexivity).
  split; [vm_compute; reflexivity|]. split; [exact Hrun|].
  intros (log & m & H). rewrite Hrun in H. discriminate H.
Qed.

(** ** A trailing fragment *)

Lemma decode_fragment (fragment : list byte) :
  length fragment <> 5%nat ->
  decode_instruction fragment =
    Raise (ValueError (MsgInstructionLength (length fragment))).
Proof.
  intros Hl. unfold decode_instruction.
  destruct (Nat.eqb_spec (length fragment) 5); [contradiction | reflexivity].
Qed.

Lemma run_program_with_fragment (k : nat) (pre fragment : list byte) (m : UVMMemory) :
  length pre = (5 * k)%nat -> (0 < length fragment < 5)%nat -> 0 <= ip m ->
  match run_program pre m with
  | Some (Raised e m1) => run_program (pre ++ fragment) m = Some (Raised e m1)
  | Some (Returned log m1) =>
      exists body,
        log = LogStart k :: body ++ summary m1 /\
        (count_exec body <= k)%nat /\
        run_program (pre ++ fragment) m =
          Some (Returned (LogStart (S k) :: body ++ fragment_entry k fragment m1 ++ summary m1) m1)
  | None => False
  end.
Proof.
  intros Hpre Hfrag Hip.
  pose proof (split_instructions_full k pre Hpre) as Hk.
  assert (Hall : split_instructions (pre ++ fragment) = split_instructions pre ++ [fragment]).
  { rewrite (split_instructions_app k) by exact Hpre.
    rewrite (split_instructions_fragment fragment) by lia. reflexivity. }
  assert (Hn : length (split_instructions (pre ++ fragment)) = S k).
  { rewrite Hall, length_app, Hk. cbn [length]. lia. }
  destruct (run_program_total pre m) as (x & [fuel Hx] & ->).
  rewrite Hk. destruct x as [body m1|e m1]; cbn [conclude exit_prepend].
  - exists body. split; [reflexivity|].
    pose proof (while_loop_count_exec _ _ _ _ _ _ Hx) as Hcount.
    rewrite Hk in Hcount. change (count_exec []) with 0%nat in Hcount.
    split; [lia|].
    unfold fragment_entry.
    destruct (Z.lt_trichotomy (ip m1) (Z.of_nat k)) as [Hlt|[Heq|Hgt]].
    + destruct (Z.eqb_spec (ip m1) (Z.of_nat k)); [lia|].
      rewrite (run_program_runs _ _ (Exit body m1)).
      * rewrite Hn. reflexivity.
      * exists fuel. rewrite Hall. apply while_loop_app_early; try assumption.
        rewrite Hk. exact Hlt.
    + destruct (Z.eqb_spec (ip m1) (Z.of_nat k)); [|lia].
      rewrite (run_program_runs _ _
                 (Exit (body ++ [LogDecodeError (ip m1)
                                   (ValueError (MsgInstructionLength (length fragment)))]) m1)).
      * rewrite Hn. cbn [conclude exit_prepend]. rewrite <- !app_assoc. reflexivity.
      * rewrite Hall. apply (runs_app_continue fuel _ _ _ _ body m1); try assumption.
        { rewrite Hk. lia. }
        exists 1%nat. apply while_loop_decode_error with (word := fragment).
        { rewrite length_app, Hk. cbn [length]. lia. }
        { rewrite Heq, <- Hk. apply getitem_middle. }
        { apply decode_fragment. lia. }
    + destruct (Z.eqb_spec (ip m1) (Z.of_nat k)); [lia|].
      rewrite (run_program_runs _ _ (Exit body m1)).
      * rewrite Hn. reflexivity.
      * rewrite Hall. apply (runs_app_continue fuel _ _ _ _ body m1); try assumption.
        { rewrite Hk. lia. }
        exists 1%nat. cbn [while_loop]. rewrite length_app, Hk. cbn [length].
        destruct (Z.ltb_spec (ip m1) (Z.of_nat (k + 1))); [lia | reflexivity].
  - rewrite (run_program_runs _ _ (Escape e m1)); [reflexivity|].
    exists fuel. rewrite Hall. apply while_loop_app_early; try assumption.
    cbn [exit_memory]. exact (while_loop_escape_ip _ _ _ _ _ _ Hx).
Qed.

(** C3, as the code has it.  A bytecode whose length is not a multiple of
    5 is cut into [len // 5] full windows and one more, shorter window.
    Started at a program counter that is not negative, the run raises
    what the run of the bytecode truncated to [5 * (len // 5)] bytes
    raises, or returns the same machine state as that run; at most
    [len // 5] instructions are executed.  The log differs: it reports one
    window more, and when the truncated run ends at the program counter
    [len // 5] the fragment is fetched, [decode_instruction] refuses its
    length, and the error line is added before the summary. *)
Theorem trailing_fragment_is_fetched (bytecode : list byte) (m : UVMMemory) :
  (length bytecode mod 5 <> 0)%nat -> 0 <= ip m ->
  let k := (length bytecode / 5)%nat in
  let truncated := take (5 * k) bytecode in
  let fragment := drop (5 * k) bytecode in
  split_instructions bytecode = split_instructions truncated ++ [fragment] /\
  length (split_instructions truncated) = k /\
  match run_program truncated m with
  | Some (Raised e m1) => run_program bytecode m = Some (Raised e m1)
  | Some (Returned log m1) =>
      exists body,
        log = LogStart k :: body ++ summary m1 /\
        (count_exec body <= k)%nat /\
        run_program bytecode m =
          Some (Returned (LogStart (S k) :: body ++ fragment_entry k fragment m1 ++ summary m1) m1)
  | None => False
  end.
Proof.
  intros Hmod Hip k truncated fragment.
  pose proof (Nat.div_mod_eq (length bytecode) 5) as Hdm.
  pose proof (Nat.mod_upper_bound (length bytecode) 5 ltac:(lia)) as Hub.
  assert (Hpre : length truncated = (5 * k)%nat).
  { unfold truncated. rewrite length_take. unfold k. lia. }
  assert (Hfrag : (0 < length fragment < 5)%nat).
  { unfold fragment. rewrite length_drop. unfold k. lia. }
  assert (Hcat : truncated ++ fragment = bytecode) by apply take_drop.
  pose proof (run_program_with_fragment k truncated fragment m Hpre Hfrag Hip) as Hrun.
  rewrite Hcat in Hrun.
  split; [|split; [exact (split_instructions_full k truncated Hpre) | exact Hrun]].
  rewrite <- Hcat at 1. rewrite (split_instructions_app k) by exact Hpre.
  rewrite (split_instructions_fragment fragment) by lia. reflexivity.
Qed.

Lemma trailing_fragment_is_fetched_witness :
  run_program [x8e; x02; x00; x00; x00; x01] UVMMemory_default =
    Some (Returned
            ([LogStart 2; LogExec 0 "load_const" 5 0;
              LogDecodeError 1 (ValueError (MsgInstructionLength 1))]
               ++ summary (set_ip (set_acc UVMMemory_default 5) 1))
            (set_ip (set_acc UVMMemory_default 5) 1)).
Proof.
  pose proof (trailing_fragment_is_fetched [x8e; x02; x00; x00; x00; x01] UVMMemory_default)
    as H.
  assert (Ht : run_program [x8e; x02; x00; x00; x00] UVMMemory_default =
               Some (Returned
                       (LogStart 1 :: [LogExec 0 "load_const" 5 0]
                          ++ summary (set_ip (set_acc UVMMemory_default 5) 1))
                       (set_ip (set_acc UVMMemory_default 5) 1)))
    by (vm_compute; reflexivity).
  destruct H as (_ & _ & Hrun); [vm_compute; discriminate | vm_compute; discriminate |].
  change (take _ [x8e; x02; x00; x00; x00; x01]) with [x8e; x02; x00; x00; x00] in Hrun.
  rewrite Ht in Hrun. destruct Hrun as (body & Hlog & _ & Hrun).
  injection Hlog as Hlog.
  apply (app_inv_tail _ [LogExec 0 "load_const" 5 0] body) in Hlog.
  subst body. exact Hrun.
Defined.

(** C3 as stated fails for one instruction followed by one stray byte:
    two windows are formed, the stray byte is fetched and handed to
    [decode_instruction], and the returned log is not the log of the
    truncated bytecode. *)
Lemma stray_byte_is_decoded :
  length (split_instructions [x8e; x02; x00; x00; x00; x01]) = 2%nat /\
  (length [x8e; x02; x00; x00; x00; x01] / 5 = 1)%nat /\
  getitem (split_instructions [x8e; x02; x00; x00; x00; x01]) 1 = Some [x01] /\
  run_program [x8e; x02; x00; x00; x00; x01] UVMMemory_default =
    Some (Returned
            ([LogStart 2; LogExec 0 "load_const" 5 0;
              LogDecodeError 1 (ValueError (MsgInstructionLength 1))]
               ++ summary (set_ip (set_acc UVMMemory_default 5) 1))
            (set_ip (set_acc UVMMemory_default 5) 1)) /\
  run_program [x8e; x02; x00; x00; x00; x01] UVMMemory_default <>
    run_program (take 5 [x8e; x02; x00; x00; x00; x01]) UVMMemory_default.
Proof.
  repeat split; try (vm_compute; reflexivity).
  vm_compute. discriminate.
Qed.

(** ** A run of four instructions *)

(** C4, as the code has it.  The four lines assemble to four words; run
    on a fresh memory they end at the program counter 4 with the
    accumulator 3 and with [memory[0] = 0]: the cell holds 5 when [less]
    compares it with the accumulator 3, and 5 < 3 is false. *)
Theorem less_program_run :
  exists bytecode log m',
    full_asm less_program =
      Ok (bytecode,
          [("load_const"%string, 5); ("write_value"%string, 0);
           ("load_const"%string, 3); ("less"%string, 0)]) /\
    length (split_instructions bytecode) = 4%nat /\
    run_program bytecode UVMMemory_default = Some (Returned log m') /\
    data m' !! 0%nat = Some 0 /\
    acc m' = 3 /\
    ip m' = 4.
Proof.
  eexists _, _, _.
  split; [vm_compute; reflexivity|].
  split; [vm_compute; reflexivity|].
  split; [vm_compute; reflexivity|].
  repeat split.
Qed.

(** C4 as stated fails: after the run [memory[0]] is not 1. *)
Lemma less_program_cell_is_not_one :
  ~ (exists bytecode IR log m',
       full_asm less_program = Ok (bytecode, IR) /\
       run_program bytecode UVMMemory_default = Some (Returned log m') /\
       data m' !! 0%nat = Some 1).
Proof.
  intros (bytecode & IR & log & m' & Hasm & Hrun & Hcell).
  vm_compute in Hasm. injection Hasm as <- <-.
  vm_compute in Hrun. injection Hrun as <- <-.
  vm_compute in Hcell. discriminate Hcell.
Qed.

(** ** The assembler *)

Lemma asm_entry_opcode (op : string) (arg : Z) :
  asm_entry (op, arg) =
    match mnemonic_opcode op with
    | Some a => pack_instruction a arg
    | None => Raise (ValueError (MsgUnknownAsmCommand op))
    end.
Proof.
  unfold asm_entry, mnemonic_opcode.
  repeat match goal with
  | |- context [ String.eqb ?x ?y ] => destruct (String.eqb x y); [reflexivity|]
  end.
  reflexivity.
Qed.

Lemma asm_entry_encodes (entry : ir_entry) (word : list byte) :
  asm_entry entry = Ok word <-> encodes entry word.
Proof.
  destruct entry as [op arg]. rewrite asm_entry_opcode. unfold encodes. cbn [fst snd].
  destruct (mnemonic_opcode op) as [a|].
  - split; [intros H; exists a; auto | intros (a' & Ha & Hp); congruence].
  - split; [discriminate | intros (a' & Ha & _); discriminate].
Qed.

Lemma pack_instruction_length (a b : Z) (word : list byte) :
  pack_instruction a b = Ok word -> length word = 5%nat.
Proof.
  intros H.
  destruct (decide (0 <= a < 128 /\ 0 <= b < 2 ^ 26)) as [[Ha Hb]|Hn].
  - rewrite pack_instruction_in_range in H by assumption.
    injection H as <-. reflexivity.
  - destruct (pack_instruction_out_of_range a b Hn) as [m Hm]. congruence.
Qed.

Lemma asm_loop_ok (IR : list ir_entry) (words : list (list byte)) (bytecode : list byte) :
  Forall2 (fun entry word => asm_entry entry = Ok word) IR words ->
  asm_loop IR bytecode = Ok (bytecode ++ concat words).
Proof.
  intros H. revert bytecode. induction H as [|entry word IR words He _ IH]; intros bytecode.
  - cbn. rewrite app_nil_r. reflexivity.
  - cbn [asm_loop concat]. rewrite He. cbn [bind]. rewrite IH, app_assoc. reflexivity.
Qed.

Lemma asm_loop_inv (IR : list ir_entry) (bytecode out : list byte) :
  asm_loop IR bytecode = Ok out ->
  exists words,
    Forall2 (fun entry word => asm_entry entry = Ok word) IR words /\
    out = bytecode ++ concat words.
Proof.
  revert bytecode. induction IR as [|entry IR IH]; intros bytecode; cbn [asm_loop].
  - intros H. injection H as <-. exists []. split; [constructor|].
    cbn. rewrite app_nil_r. reflexivity.
  - destruct (asm_entry entry) as [word|e] eqn:He; cbn [bind]; [|discriminate].
    intros H. destruct (IH _ H) as (words & Hw & ->).
    exists (word :: words). split; [constructor; assumption|].
    cbn. rewrite app_assoc. reflexivity.
Qed.

Lemma asm_loop_raise (IR : list ir_entry) (bytecode : list byte) (entry : ir_entry) (e : exn) :
  entry ∈ IR -> asm_entry entry = Raise e -> exists e', asm_loop IR bytecode = Raise e'.
Proof.
  intros Hin He. revert bytecode.
  induction Hin as [entry IR|entry other IR Hin IH]; intros bytecode; cbn [asm_loop].
  - rewrite He. eexists. reflexivity.
  - destruct (asm_entry other); cbn [bind]; [apply IH; exact He | eexists; reflexivity].
Qed.

Lemma full_asm_lines_ok (lines : list string) (parsed : list (option ir_entry))
    (IR : list ir_entry) :
  Forall2 (fun line p => parse_line line = Ok p) lines parsed ->
  full_asm_lines lines IR = Ok (IR ++ omap id parsed).
Proof.
  intros H. revert IR. induction H as [|line p lines parsed Hp _ IH]; intros IR.
  - cbn. rewrite app_nil_r. reflexivity.
  - cbn [full_asm_lines]. rewrite Hp. cbn [bind].
    destruct p as [entry|]; rewrite IH; cbn; rewrite <- ?app_assoc; reflexivity.
Qed.

Lemma full_asm_lines_inv (lines : list string) (IR out : list ir_entry) :
  full_asm_lines lines IR = Ok out ->
  exists parsed,
    Forall2 (fun line p => parse_line line = Ok p) lines parsed /\
    out = IR ++ omap id parsed.
Proof.
  revert IR. induction lines as [|line lines IH]; intros IR; cbn [full_asm_lines].
  - intros H. injection H as <-. exists []. split; [constructor|].
    cbn. rewrite app_nil_r. reflexivity.
  - destruct (parse_line line) as [p|e] eqn:Hp; cbn [bind]; [|discriminate].
    destruct p as [entry|]; intros H; destruct (IH _ H) as (parsed & Hl & ->).
    + exists (Some entry :: parsed). split; [constructor; assumption|].
      cbn. rewrite <- app_assoc. reflexivity.
    + exists (None :: parsed). split; [constructor; assumption | reflexivity].
Qed.

Lemma full_asm_lines_raise (lines : list string) (IR : list ir_entry) (line : string) (e : exn) :
  line ∈ lines -> parse_line line = Raise e -> exists e', full_asm_lines lines IR = Raise e'.
Proof.
  intros Hin He. revert IR.
  induction Hin as [line lines|line other lines Hin IH]; intros IR; cbn [full_asm_lines].
  - rewrite He. eexists. reflexivity.
  - destruct (parse_line other) as [[entry|]|e0]; cbn [bind];
      [apply IH; exact He | apply IH; exact He | eexists; reflexivity].
Qed.

Lemma encodes_word_length (IR : list ir_entry) (words : list (list byte)) :
  Forall2 encodes IR words -> Forall (fun word => length word = 5%nat) words.
Proof.
  induction 1 as [|entry word IR words (a & _ & Hp) _ IH]; constructor;
    [exact (pack_instruction_length _ _ _ Hp) | exact IH].
Qed.

Lemma concat_words_length (words : list (list byte)) :
  Forall (fun word => length word = 5%nat) words ->
  length (concat words) = (5 * length words)%nat.
Proof.
  induction 1 as [|word words Hl _ IH]; [reflexivity|].
  cbn [concat length]. rewrite length_app, Hl, IH. lia.
Qed.

(** C9. [full_asm] raises as soon as one line does not parse, one
    mnemonic of the IR is not in the enumeration, or one word cannot be
    encoded, and then returns neither bytecode nor IR.  When every line
    parses and every IR entry is encoded, it returns the IR in line order
    and the concatenation of the 5-byte words of its entries; it returns
    nothing else. *)
Theorem full_asm_all_or_nothing (text : string) :
  let lines := splitlines (strip text) in
  ((exists line e, line ∈ lines /\ parse_line line = Raise e) ->
   exists e, full_asm text = Raise e) /\
  (forall parsed,
     Forall2 (fun line p => parse_line line = Ok p) lines parsed ->
     let IR := omap id parsed in
     ((exists op arg, (op, arg) ∈ IR /\ mnemonic_opcode op = None) ->
      exists e, full_asm text = Raise e) /\
     ((exists op arg a e,
         (op, arg) ∈ IR /\ mnemonic_opcode op = Some a /\ pack_instruction a arg = Raise e) ->
      exists e, full_asm text = Raise e) /\
     (forall words,
        Forall2 encodes IR words ->
        full_asm text = Ok (concat words, IR) /\
        Forall (fun word => length word = 5%nat) words /\
        length (concat words) = (5 * length IR)%nat)) /\
  (forall bytecode IR,
     full_asm text = Ok (bytecode, IR) ->
     exists parsed words,
       Forall2 (fun line p => parse_line line = Ok p) lines parsed /\
       IR = omap id parsed /\
       Forall2 encodes IR words /\
       bytecode = concat words).
Proof.
  intros lines. unfold full_asm. fold lines. split; [|split].
  - intros (line & e & Hin & He).
    destruct (full_asm_lines_raise lines [] line e Hin He) as [e' ->].
    eexists. reflexivity.
  - intros parsed Hparsed. set (IR := omap id parsed).
    rewrite (full_asm_lines_ok lines parsed [] Hparsed). cbn [bind app]. fold IR.
    assert (Hfail : forall entry e, entry ∈ IR -> asm_entry entry = Raise e ->
                    exists e', (let? bytecode := asm IR in Ok (bytecode, IR)) = Raise e').
    { intros entry e Hin He. unfold asm.
      destruct (asm_loop_raise IR [] entry e Hin He) as [e' ->]. eexists. reflexivity. }
    split; [|split].
    + intros (op & arg & Hin & Hop).
      eapply Hfail; [exact Hin|]. rewrite asm_entry_opcode, Hop. reflexivity.
    + intros (op & arg & a & e & Hin & Hop & Hp).
      eapply Hfail; [exact Hin|]. rewrite asm_entry_opcode, Hop. exact Hp.
    + intros words Hwords.
      assert (Hw : Forall2 (fun entry word => asm_entry entry = Ok word) IR words).
      { eapply Forall2_impl; [exact Hwords|]. intros entry word. apply asm_entry_encodes. }
      unfold asm. rewrite (asm_loop_ok IR words [] Hw). cbn [bind app].
      split; [reflexivity|].
      pose proof (encodes_word_length IR words Hwords) as H5.
      split; [exact H5|].
      rewrite (Forall2_length _ _ _ Hwords). apply concat_words_length. exact H5.
  - intros bytecode IR.
    destruct (full_asm_lines lines []) as [IR0|e] eqn:Hlines; cbn [bind]; [|discriminate].
    destruct (asm IR0) as [bytecode0|e] eqn:Hasm; cbn [bind]; [|discriminate].
    intros H. injection H as <- <-.
    destruct (full_asm_lines_inv _ _ _ Hlines) as (parsed & Hparsed & HIR).
    destruct (asm_loop_inv _ _ _ Hasm) as (words & Hwords & Hbytes).
    exists parsed, words. cbn [app] in HIR, Hbytes.
    split; [exact Hparsed|]. split; [exact HIR|]. split; [|exact Hbytes].
    eapply Forall2_impl; [exact Hwords|]. intros entry word. apply asm_entry_encodes.
Qed.

Lemma full_asm_all_or_nothing_witness :
  full_asm "load_const; 381" =
    Ok (concat [[x8e; xbe; x00; x00; x00]], [("load_const"%string, 381)]).
Proof.
  destruct (full_asm_all_or_nothing "load_const; 381") as (_ & Hparsed & _).
  destruct (Hparsed [Some ("load_const"%string, 381)]) as (_ & _ & Hok).
  { repeat constructor. }
  destruct (Hok [[x8e; xbe; x00; x00; x00]]) as [Hrun _].
  { constructor; [|constructor]. exists 14. split; reflexivity. }
  exact Hrun.
Defined.

(** *** The fields of a line *)

Lemma split_no_separator (sep : ascii) (s : string) :
  contains sep s = false -> split sep s = [s].
Proof.
  induction s as [|c s IH]; [reflexivity|].
  cbn [contains split]. intros H. apply orb_false_iff in H as [Hc Hs].
  rewrite Hc, (IH Hs). reflexivity.
Qed.

Lemma split_at_separator (sep : ascii) (field rest : string) :
  contains sep field = false ->
  split sep (field +:+ String sep rest) = field :: split sep rest.
Proof.
  induction field as [|c field IH].
  - intros _. change (EmptyString +:+ String sep rest) with (String sep rest).
    cbn [split]. rewrite Ascii.eqb_refl. reflexivity.
  - intros H. cbn [contains] in H. apply orb_false_iff in H as [Hc Hs].
    change (split sep (String c (field +:+ String sep rest)) = String c field :: split sep rest).
    cbn [split]. rewrite Hc, (IH Hs). reflexivity.
Qed.

Lemma split_two_fields (mnemonic argument tail : string) :
  contains ";"%char mnemonic = false ->
  contains ";"%char argument = false ->
  tail = EmptyString \/ (exists t, tail = String ";"%char t) ->
  exists more,
    split ";"%char (mnemonic +:+ String ";"%char (argument +:+ tail)) =
      mnemonic :: argument :: more.
Proof.
  intros Hm Ha Ht. rewrite split_at_separator by exact Hm.
  destruct Ht as [->|[t ->]].
  - exists []. f_equal.
    replace (argument +:+ EmptyString) with argument.
    + apply split_no_separator. exact Ha.
    + clear. induction argument as [|c s IH]; [reflexivity|].
      change (String c s +:+ EmptyString) with (String c (s +:+ EmptyString)).
      rewrite <- IH. reflexivity.
  - exists (split ";"%char t). f_equal. apply split_at_separator. exact Ha.
Qed.

Lemma int_raises_ValueError (s : string) (e : exn) :
  int s = Raise e -> exists msg, e = ValueError msg.
Proof.
  unfold int.
  destruct (match lstrip_with int_isspace s with
            | String "+"%char r => (1, r)
            | String "-"%char r => (-1, r)
            | _ => (1, lstrip_with int_isspace s)
            end) as [sign body].
  destruct (scan_digits body 0 0 false) as [[[value digits] rest]|].
  - destruct (Nat.ltb int_max_str_digits digits); [intros H; inversion H; eauto|].
    destruct (is_empty (lstrip_with int_isspace rest)); intros H; inversion H; eauto.
  - intros H; inversion H; eauto.
Qed.

(** C5, as the code has it.  A line that is not empty once white space
    and the comment are removed is split at every [;].  With no [;] in it,
    or with a second field that is empty or white space, [parse_line]
    raises the [ValueError] that names the stripped first field.
    Otherwise the stripped second field alone is given to [int]: what
    [int] raises is a [ValueError] and leaves [parse_line], and a value
    yields the IR entry; what follows a second [;] is ignored.  An
    exception of [parse_line] ends the loop over the lines. *)
Theorem parse_line_fields (line : string) :
  line_body line <> EmptyString ->
  (contains ";"%char (line_body line) = false ->
   parse_line line = Raise (ValueError (MsgArgumentRequired (strip (line_body line))))) /\
  (forall mnemonic argument tail,
     line_body line = (mnemonic +:+ String ";"%char (argument +:+ tail))%string ->
     contains ";"%char mnemonic = false ->
     contains ";"%char argument = false ->
     tail = EmptyString \/ (exists t, tail = String ";"%char t) ->
     parse_line line =
       if is_empty (strip argument)
       then Raise (ValueError (MsgArgumentRequired (strip mnemonic)))
       else match int (strip argument) with
            | Ok value => Ok (Some (strip mnemonic, value))
            | Raise e => Raise e
            end) /\
  (forall s e, int s = Raise e -> exists msg, e = ValueError msg) /\
  (forall e rest IR, parse_line line = Raise e -> full_asm_lines (line :: rest) IR = Raise e).
Proof.
  intros Hbody.
  assert (Hne : is_empty (line_body line) = false).
  { destruct (line_body line); [contradiction | reflexivity]. }
  split; [|split; [|split]].
  - intros Hno. unfold parse_line. fold (line_body line).
    rewrite Hne, (split_no_separator _ _ Hno). reflexivity.
  - intros mnemonic argument tail Heq Hm Ha Ht.
    destruct (split_two_fields mnemonic argument tail Hm Ha Ht) as [more Hsplit].
    unfold parse_line. fold (line_body line).
    rewrite Hne, Heq, Hsplit. cbn [nth length Nat.ltb Nat.leb andb].
    destruct (is_empty (strip argument)); cbn [negb]; [reflexivity|].
    destruct (int (strip argument)); reflexivity.
  - apply int_raises_ValueError.
  - intros e rest IR He. cbn [full_asm_lines]. rewrite He. reflexivity.
Qed.

Lemma parse_line_fields_witness :
  parse_line "  load_const; 381  # comment" = Ok (Some ("load_const"%string, 381)).
Proof.
  destruct (parse_line_fields "  load_const; 381  # comment") as (_ & Hfields & _).
  { vm_compute. discriminate. }
  apply (Hfields "load_const"%string " 381"%string EmptyString);
    [vm_compute; reflexivity | reflexivity | reflexivity | left; reflexivity].
Defined.

(** C5 as stated fails for a line with a third field: the text after the
    first [;] is not an integer literal, and the line assembles. *)
Lemma second_separator_is_accepted :
  int "5;6" = Raise (ValueError (MsgInvalidLiteral "5;6")) /\
  parse_line "load_const;5;6" = Ok (Some ("load_const"%string, 5)) /\
  full_asm "load_const;5;6" = Ok ([x8e; x02; x00; x00; x00], [("load_const"%string, 5)]).
Proof.
  repeat split; vm_compute; reflexivity.
Qed.

(** * Further properties of the code *)

(** ** The memory object *)

Lemma UVMMemory_eta (m : UVMMemory) :
  {| data := data m; stack := stack m; ip := ip m; acc := acc m |} = m.
Proof. destruct m; reflexivity. Qed.

Lemma read_data_ok (m : UVMMemory) (address value : Z) :
  read_data m address = Ok value <->
  0 <= address < Z.of_nat (length (data m)) /\ data m !! Z.to_nat address = Some value.
Proof.
  unfold read_data. destruct (in_data m address) eqn:Hin.
  - pose proof (proj1 (in_data_spec m address) Hin) as Hr.
    destruct (data m !! Z.to_nat address) as [v|] eqn:Hl.
    + split; [intros H; injection H as <-; auto | intros [_ H]; congruence].
    + split; [discriminate | intros [_ H]; discriminate].
  - split; [discriminate|]. intros [Hr _].
    apply in_data_spec in Hr. congruence.
Qed.

Lemma write_data_ok (m : UVMMemory) (address value : Z) (m' : UVMMemory) :
  write_data m address value = Ok m' <->
  0 <= address < Z.of_nat (length (data m)) /\
  m' = set_data m (<[Z.to_nat address := value]> (data m)).
Proof.
  unfold write_data. destruct (in_data m address) eqn:Hin.
  - pose proof (proj1 (in_data_spec m address) Hin) as Hr.
    split; [intros H; injection H as <-; auto | intros [_ ->]; reflexivity].
  - split; [discriminate|]. intros [Hr _].
    apply in_data_spec in Hr. congruence.
Qed.

(** X1. A successful [write_data] is read back by [read_data] at the
    same address; at every other address [read_data] answers as before,
    with the same value or the same error; the stack, the program counter
    and the accumulator are untouched. *)
Theorem write_data_read_data (m m' : UVMMemory) (address value : Z) :
  write_data m address value = Ok m' ->
  read_data m' address = Ok value /\
  (forall other, other <> address -> read_data m' other = read_data m other) /\
  stack m' = stack m /\ ip m' = ip m /\ acc m' = acc m.
Proof.
  intros [Hr ->]%write_data_ok. split; [|split; [|repeat split]].
  - apply read_data_ok. cbn [set_data data]. rewrite length_insert.
    split; [exact Hr|]. apply list_lookup_insert_eq. lia.
  - intros other Hne. unfold read_data, in_data. cbn [set_data data].
    rewrite length_insert.
    destruct ((0 <=? other) && (other <? Z.of_nat (length (data m)))) eqn:Hin;
      [|reflexivity].
    apply andb_true_iff in Hin as [H0 _]. apply Z.leb_le in H0.
    rewrite list_lookup_insert_ne by lia. reflexivity.
Qed.

Lemma write_data_read_data_witness :
  read_data (set_data UVMMemory_default (<[Z.to_nat 7 := 42]> (data UVMMemory_default))) 7
    = Ok 42.
Proof.
  apply (write_data_read_data UVMMemory_default _ 7 42). reflexivity.
Defined.

(** X2. [read_data] and [write_data] succeed exactly for the addresses
    [0 .. len(data) - 1]: a negative address is refused (it does not index
    from the end) and an address at or past the end is refused (the
    memory does not grow); a write never changes the number of cells. *)
Theorem data_access_bounds (m : UVMMemory) (address value : Z) :
  (0 <= address < Z.of_nat (length (data m)) ->
   exists old m',
     data m !! Z.to_nat address = Some old /\
     read_data m address = Ok old /\
     write_data m address value = Ok m' /\
     length (data m') = length (data m)) /\
  (address < 0 \/ Z.of_nat (length (data m)) <= address ->
   read_data m address = Raise (IndexError (MsgReadAddress address)) /\
   write_data m address value = Raise (IndexError (MsgWriteAddress address))).
Proof.
  split.
  - intros Hr. pose proof (proj2 (in_data_spec m address) Hr) as Hin.
    destruct (in_data_lookup m address Hin) as [old Hold].
    exists old. eexists. split; [exact Hold|].
    split; [exact (read_data_in_range m address old Hin Hold)|].
    unfold write_data. rewrite Hin. split; [reflexivity|].
    cbn [set_data data]. apply length_insert.
  - intros Hout.
    assert (Hin : in_data m address = false).
    { destruct (in_data m address) eqn:E; [|reflexivity]. apply in_data_spec in E. lia. }
    split; [apply read_data_out_of_range | apply write_data_out_of_range]; exact Hin.
Qed.

Lemma data_access_bounds_witness :
  read_data UVMMemory_default (-1) = Raise (IndexError (MsgReadAddress (-1))) /\
  write_data UVMMemory_default (-1) 5 = Raise (IndexError (MsgWriteAddress (-1))).
Proof.
  destruct (data_access_bounds UVMMemory_default (-1) 5) as [_ Hout].
  apply Hout. left. lia.
Defined.

(** X3. The stack is last-in first-out: [pop] after [push] returns the
    pushed value and the memory object as it was before the [push];
    [pop] on an empty stack raises [IndexError]; a successful [pop]
    removes exactly the last element and leaves data memory, program
    counter and accumulator untouched. *)
Theorem push_pop (m : UVMMemory) (value : Z) :
  pop (push m value) = Ok (value, m) /\
  (stack m = [] -> pop m = Raise (IndexError MsgStackEmpty)) /\
  (forall top m', pop m = Ok (top, m') ->
     stack m = stack m' ++ [top] /\
     data m' = data m /\ ip m' = ip m /\ acc m' = acc m).
Proof.
  split; [|split].
  - unfold pop, push, set_stack. cbn [stack data ip acc].
    rewrite reverse_snoc, reverse_involutive. f_equal. f_equal. apply UVMMemory_eta.
  - intros Hs. unfold pop. rewrite Hs. reflexivity.
  - intros top m'. unfold pop.
    destruct (reverse (stack m)) as [|v below] eqn:Hrev; [discriminate|].
    intros H. injection H as <- <-. cbn [set_stack stack data ip acc].
    split; [|repeat split].
    rewrite <- (reverse_involutive (stack m)), Hrev, reverse_cons. reflexivity.
Qed.

Lemma push_pop_witness :
  pop UVMMemory_default = Raise (IndexError MsgStackEmpty).
Proof.
  destruct (push_pop UVMMemory_default 0) as (_ & Hempty & _).
  apply Hempty. reflexivity.
Defined.

(** X4. A fresh [UVMMemory(data_size)] has [data_size] cells, every one
    of them reads 0, the stack is empty and the program counter and the
    accumulator are 0; with a [data_size] that is not positive there is
    no cell, so every read is refused. *)
Theorem UVMMemory_init_fresh (data_size address : Z) :
  let m := UVMMemory_init data_size in
  Z.of_nat (length (data m)) = Z.max 0 data_size /\
  stack m = [] /\ ip m = 0 /\ acc m = 0 /\
  (0 <= address < data_size -> read_data m address = Ok 0) /\
  (address < 0 \/ data_size <= address ->
   read_data m address = Raise (IndexError (MsgReadAddress address))).
Proof.
  intros m.
  assert (Hlen : Z.of_nat (length (data m)) = Z.max 0 data_size).
  { unfold m, UVMMemory_init. cbn [data]. rewrite length_replicate. lia. }
  split; [exact Hlen|]. split; [reflexivity|]. split; [reflexivity|].
  split; [reflexivity|]. split.
  - intros Hr. apply read_data_ok. split; [lia|].
    unfold m, UVMMemory_init. cbn [data]. apply lookup_replicate_2. lia.
  - intros Hout. apply read_data_out_of_range.
    destruct (in_data m address) eqn:E; [|reflexivity]. apply in_data_spec in E. lia.
Qed.

Lemma UVMMemory_init_fresh_witness :
  read_data (UVMMemory_init 8) 7 = Ok 0.
Proof.
  destruct (UVMMemory_init_fresh 8 7) as (_ & _ & _ & _ & Hread & _).
  apply Hread. lia.
Defined.

(** X5. The memory dump lists, in increasing order and once each, the
    addresses that lie both in the requested range [start_addr ..
    end_addr] and in the data memory, each with the value stored there;
    addresses outside the memory are left out without an error, and the
    dump repeats the stack, the program counter and the accumulator. *)
Theorem dump_memory_cells (m : UVMMemory) (start_addr end_addr : Z) :
  let dump := dump_memory_to_xml_str m start_addr end_addr in
  (forall addr value,
     (addr, value) ∈ dump_cells dump <->
     start_addr <= addr <= end_addr /\ 0 <= addr /\
     data m !! Z.to_nat addr = Some value) /\
  fst <$> dump_cells dump =
    seqZ (Z.max 0 start_addr)
         (Z.min (end_addr + 1) (Z.of_nat (length (data m))) - Z.max 0 start_addr) /\
  dump_stack dump = stack m /\ dump_ip dump = ip m /\ dump_acc dump = acc m.
Proof.
  intros dump. split; [|split; [|repeat split]].
  - intros addr value. unfold dump, dump_memory_to_xml_str. cbn [dump_cells].
    rewrite list_elem_of_fmap. setoid_rewrite elem_of_seqZ. split.
    + intros (a & Heq & Ha). injection Heq as -> ->.
      assert (Hlt : (Z.to_nat a < length (data m))%nat) by lia.
      apply lookup_lt_is_Some in Hlt as [v Hv]. rewrite Hv. cbn. split; [lia|].
      split; [lia | reflexivity].
    + intros (Hr & H0 & Hl). exists addr. rewrite Hl. cbn. split; [reflexivity|].
      apply lookup_lt_Some in Hl. lia.
  - unfold dump, dump_memory_to_xml_str. cbn [dump_cells].
    rewrite <- list_fmap_compose. apply list_fmap_id.
Qed.

Lemma dump_memory_cells_witness :
  (2045, 0) ∈ dump_cells (dump_memory_to_xml_str UVMMemory_default 2045 5000).
Proof.
  destruct (dump_memory_cells UVMMemory_default 2045 5000) as (Hcells & _).
  apply Hcells. split; [lia|]. split; [lia | reflexivity].
Defined.

(** ** The instruction word, read back *)

Lemma little_endian_int_from_bytes (word : list byte) :
  little_endian (length word) (int_from_bytes word) = word.
Proof.
  induction word as [|b word IH]; [reflexivity|].
  cbn [length little_endian int_from_bytes].
  pose proof (Z_of_byte_range b) as Hb. f_equal.
  - rewrite <- byte_of_Z_mod.
    replace ((Z_of_byte b + 256 * int_from_bytes word) mod 256) with (Z_of_byte b).
    + apply byte_of_Z_of_byte.
    + rewrite (Z.mul_comm 256), Z.mod_add by lia.
      symmetry. apply Z.mod_small. lia.
  - replace ((Z_of_byte b + 256 * int_from_bytes word) / 256) with (int_from_bytes word);
      [exact IH|].
    rewrite (Z.mul_comm 256), Z.div_add by lia.
    rewrite Z.div_small by lia. lia.
Qed.

Lemma int_from_bytes_range (word : list byte) :
  0 <= int_from_bytes word < 256 ^ Z.of_nat (length word).
Proof.
  induction word as [|b word IH]; [cbn; lia|].
  cbn [length int_from_bytes]. pose proof (Z_of_byte_range b) as Hb.
  rewrite Nat2Z.inj_succ, Z.pow_succ_r by lia. lia.
Qed.

Lemma decode_instruction_ok (word : list byte) (cmd : string) (b : Z) :
  decode_instruction word = Ok (cmd, b) ->
  length word = 5%nat /\
  OPCODE_NAMES !! Z.land (int_from_bytes word) 0x7F = Some cmd /\
  b = Z.shiftr (int_from_bytes word) 7.
Proof.
  unfold decode_instruction.
  destruct (Nat.eqb_spec (length word) 5) as [Hl|]; cbn [negb]; [|discriminate].
  destruct (OPCODE_NAMES !! Z.land (int_from_bytes word) 127) as [name|] eqn:Hn;
    [|discriminate].
  intros H. injection H as <- <-. auto.
Qed.

Lemma word_fields (value : Z) :
  0 <= value ->
  0 <= Z.land value 0x7F < 128 /\ 0 <= Z.shiftr value 7 /\
  Z.lor (Z.land value 0x7F) (Z.shiftl (Z.shiftr value 7) 7) = value.
Proof.
  intros Hv. change 0x7F with (Z.ones 7).
  rewrite Z.land_ones, Z.shiftr_div_pow2 by lia. change (2 ^ 7) with 128.
  pose proof (Z.mod_pos_bound value 128 ltac:(lia)) as Hm.
  assert (Hd : 0 <= value / 128) by (apply Z.div_pos; lia).
  split; [exact Hm|]. split; [exact Hd|].
  rewrite word_value by lia. pose proof (Z.div_mod value 128). lia.
Qed.

Lemma opcode_name_mnemonic (a : Z) (cmd : string) :
  opcode_name a = Some cmd <-> mnemonic_opcode cmd = Some a.
Proof.
  unfold opcode_name, mnemonic_opcode. split.
  - repeat match goal with
    | |- context [ ?x =? ?y ] => destruct (Z.eqb_spec x y)
    end; intros H; inversion H; subst; reflexivity.
  - repeat match goal with
    | |- context [ String.eqb ?x ?y ] => destruct (String.eqb_spec x y)
    end; intros H; inversion H; subst; reflexivity.
Qed.

Lemma mnemonic_opcode_known (op : string) (a : Z) :
  mnemonic_opcode op = Some a ->
  op = "load_const"%string \/ op = "read_value"%string \/
  op = "write_value"%string \/ op = "less"%string.
Proof.
  unfold mnemonic_opcode.
  repeat match goal with
  | |- context [ String.eqb ?x ?y ] => destruct (String.eqb_spec x y); [auto|]
  end.
  discriminate.
Qed.

(** X6. What [decode_instruction] accepts is a word of the encoder,
    unless the operand is too large for it: when a word decodes to
    [(cmd, b)], the operand is between 0 and 2^33 - 1 and [cmd] is the
    table's name of the opcode field [a]; for [b] below 2^26
    [pack_instruction a b] gives back the same five bytes, and for larger
    [b], which the decoder accepts, the encoder refuses the pair. *)
Theorem decode_then_pack (word : list byte) (cmd : string) (b : Z) :
  decode_instruction word = Ok (cmd, b) ->
  exists a,
    OPCODE_NAMES !! a = Some cmd /\
    0 <= a < 128 /\ 0 <= b < 2 ^ 33 /\
    (b < 2 ^ 26 -> pack_instruction a b = Ok word) /\
    (2 ^ 26 <= b -> exists msg, pack_instruction a b = Raise (ValueError msg)).
Proof.
  intros (Hlen & Hname & ->)%decode_instruction_ok.
  pose proof (int_from_bytes_range word) as Hv. rewrite Hlen in Hv.
  change (256 ^ Z.of_nat 5) with (2 ^ 40) in Hv.
  destruct (word_fields (int_from_bytes word) ltac:(lia)) as (Ha & Hb & Hjoin).
  exists (Z.land (int_from_bytes word) 0x7F).
  split; [exact Hname|]. split; [exact Ha|].
  assert (Hb33 : Z.shiftr (int_from_bytes word) 7 < 2 ^ 33).
  { rewrite Z.shiftr_div_pow2 by lia. apply Z.div_lt_upper_bound; [lia|].
    change (2 ^ 7 * 2 ^ 33) with (2 ^ 40). lia. }
  split; [lia|]. split.
  - intros Hsmall. rewrite pack_instruction_in_range by lia.
    rewrite Hjoin, <- Hlen. f_equal. apply little_endian_int_from_bytes.
  - intros Hbig. apply pack_instruction_out_of_range. lia.
Qed.

Lemma decode_then_pack_witness :
  exists a,
    OPCODE_NAMES !! a = Some "less"%string /\
    0 <= a < 128 /\ 0 <= 989 < 2 ^ 33 /\
    (989 < 2 ^ 26 -> pack_instruction a 989 = Ok [xc5; xee; x01; x00; x00]) /\
    (2 ^ 26 <= 989 -> exists msg, pack_instruction a 989 = Raise (ValueError msg)).
Proof.
  apply (decode_then_pack [xc5; xee; x01; x00; x00] "less" 989).
  vm_compute. reflexivity.
Defined.

(** X7. The encoding is injective: two pairs that [pack_instruction]
    turns into the same five bytes are the same pair. *)
Theorem pack_instruction_injective (a b a' b' : Z) (word : list byte) :
  pack_instruction a b = Ok word ->
  pack_instruction a' b' = Ok word ->
  a = a' /\ b = b'.
Proof.
  intros H H'.
  assert (Hr : 0 <= a < 128 /\ 0 <= b < 2 ^ 26).
  { destruct (decide (0 <= a < 128 /\ 0 <= b < 2 ^ 26)) as [Hr|Hn]; [exact Hr|].
    destruct (pack_instruction_out_of_range a b Hn) as [m Hm]. congruence. }
  assert (Hr' : 0 <= a' < 128 /\ 0 <= b' < 2 ^ 26).
  { destruct (decide (0 <= a' < 128 /\ 0 <= b' < 2 ^ 26)) as [Hr'|Hn]; [exact Hr'|].
    destruct (pack_instruction_out_of_range a' b' Hn) as [m Hm]. congruence. }
  destruct Hr as [Ha Hb], Hr' as [Ha' Hb'].
  rewrite pack_instruction_in_range in H, H' by assumption.
  assert (H26 : 2 ^ 26 = 67108864) by reflexivity.
  assert (Hv : int_from_bytes word = a + 128 * b).
  { replace word with (little_endian 5 (Z.lor a (Z.shiftl b 7))) by congruence.
    rewrite int_from_bytes_little_endian; rewrite word_value by lia; [reflexivity|].
    change (256 ^ Z.of_nat 5) with 1099511627776. lia. }
  assert (Hv' : int_from_bytes word = a' + 128 * b').
  { replace word with (little_endian 5 (Z.lor a' (Z.shiftl b' 7))) by congruence.
    rewrite int_from_bytes_little_endian; rewrite word_value by lia; [reflexivity|].
    change (256 ^ Z.of_nat 5) with 1099511627776. lia. }
  lia.
Qed.

Lemma pack_instruction_injective_witness :
  14 = 14 /\ 381 = 381.
Proof.
  apply (pack_instruction_injective 14 381 14 381 [x8e; xbe; x00; x00; x00]);
    vm_compute; reflexivity.
Defined.

Lemma pack_decodes_mnemonic (op : string) (a arg : Z) (word : list byte) :
  mnemonic_opcode op = Some a -> pack_instruction a arg = Ok word ->
  decode_instruction word = Ok (op, arg).
Proof.
  intros Hop Hpack.
  assert (Hr : 0 <= a < 128 /\ 0 <= arg < 2 ^ 26).
  { destruct (decide (0 <= a < 128 /\ 0 <= arg < 2 ^ 26)) as [Hr|Hn]; [exact Hr|].
    destruct (pack_instruction_out_of_range a arg Hn) as [m Hm]. congruence. }
  destruct Hr as [Ha Harg].
  rewrite pack_instruction_in_range in Hpack by assumption.
  replace word with (little_endian 5 (Z.lor a (Z.shiftl arg 7))) by congruence.
  rewrite decode_pack by assumption.
  apply opcode_name_mnemonic in Hop. rewrite Hop. reflexivity.
Qed.

(** X8. The assembler and the interpreter agree on the opcodes: the
    word that [asm] emits for the IR entry [(op, arg)] is decoded by
    [decode_instruction] to the same mnemonic and the same argument. *)
Theorem asm_entry_decodes (op : string) (arg : Z) (word : list byte) :
  asm_entry (op, arg) = Ok word -> decode_instruction word = Ok (op, arg).
Proof.
  unfold asm_entry, asm_load_const, asm_read_value, asm_write_value, asm_less,
    OP_LOAD_CONST, OP_READ, OP_WRITE, OP_LESS.
  destruct (String.eqb_spec op "load_const") as [->|_];
    [apply pack_decodes_mnemonic; reflexivity|].
  destruct (String.eqb_spec op "read_value") as [->|_];
    [apply pack_decodes_mnemonic; reflexivity|].
  destruct (String.eqb_spec op "write_value") as [->|_];
    [apply pack_decodes_mnemonic; reflexivity|].
  destruct (String.eqb_spec op "less") as [->|_];
    [apply pack_decodes_mnemonic; reflexivity|].
  discriminate.
Qed.

Lemma asm_entry_decodes_witness :
  decode_instruction [x5e; x9a; x00; x00; x00] = Ok ("write_value"%string, 308).
Proof.
  apply (asm_entry_decodes "write_value" 308). vm_compute. reflexivity.
Defined.

(** X9. [asm] encodes an IR entry exactly when its mnemonic is one of
    [load_const], [read_value], [write_value], [less] and its argument is
    between 0 and 2^26 - 1; any other mnemonic raises the unknown-command
    [ValueError] whatever the argument, and a negative or too large
    argument raises the [ValueError] of the operand field. *)
Theorem asm_entry_accepts (op : string) (arg : Z) :
  ((exists word, asm_entry (op, arg) = Ok word) <->
   (op = "load_const"%string \/ op = "read_value"%string \/
    op = "write_value"%string \/ op = "less"%string) /\
   0 <= arg < 2 ^ 26) /\
  (op <> "load_const"%string -> op <> "read_value"%string ->
   op <> "write_value"%string -> op <> "less"%string ->
   asm_entry (op, arg) = Raise (ValueError (MsgUnknownAsmCommand op))) /\
  ((op = "load_const"%string \/ op = "read_value"%string \/
    op = "write_value"%string \/ op = "less"%string) ->
   arg < 0 \/ 2 ^ 26 <= arg ->
   asm_entry (op, arg) = Raise (ValueError (MsgOperandField arg))).
Proof.
  split; [|split].
  - rewrite asm_entry_opcode. split.
    + intros [word Hw]. destruct (mnemonic_opcode op) as [a|] eqn:Hop; [|discriminate].
      split; [exact (mnemonic_opcode_known op a Hop)|].
      destruct (decide (0 <= a < 128 /\ 0 <= arg < 2 ^ 26)) as [[_ Hr]|Hn]; [exact Hr|].
      destruct (pack_instruction_out_of_range a arg Hn) as [m Hm]. congruence.
    + intros [Hop Harg].
      destruct Hop as [->|[->|[->| ->]]]; cbn [mnemonic_opcode String.eqb Ascii.eqb Bool.eqb];
        rewrite pack_instruction_in_range by lia; eexists; reflexivity.
  - intros H1 H2 H3 H4. unfold asm_entry.
    repeat match goal with
    | |- context [ String.eqb ?x ?y ] => destruct (String.eqb_spec x y); [contradiction|]
    end.
    reflexivity.
  - intros Hop Harg.
    assert (Hb : (arg <? 0) || (arg >=? Z.shiftl 1 26) = true).
    { change (Z.shiftl 1 26) with (2 ^ 26). rewrite Z.geb_leb.
      apply orb_true_iff. destruct Harg; [left; apply Z.ltb_lt | right; apply Z.leb_le]; lia. }
    destruct Hop as [->|[->|[->| ->]]];
      unfold asm_entry, asm_load_const, asm_read_value, asm_write_value, asm_less,
        pack_instruction;
      cbn [String.eqb Ascii.eqb Bool.eqb]; rewrite Hb; reflexivity.
Qed.

Lemma asm_entry_accepts_witness :
  asm_entry ("load_const"%string, -1) = Raise (ValueError (MsgOperandField (-1))).
Proof.
  destruct (asm_entry_accepts "load_const" (-1)) as (_ & _ & Hneg).
  apply Hneg; [left; reflexivity | left; lia].
Defined.

(** ** Bytecode and its windows *)

Lemma split_instructions_lookup (bytecode : list byte) (i : nat) (word : list byte) :
  split_instructions bytecode !! i = Some word ->
  word = take 5 (drop (5 * i) bytecode) /\ (5 * i < length bytecode)%nat.
Proof.
  unfold split_instructions, range_step. rewrite !list_lookup_fmap.
  destruct (seq 0 ((length bytecode + 5 - 1) / 5) !! i) as [k|] eqn:Hk; [|discriminate].
  apply lookup_seq in Hk as [-> Hlt]. cbn [fmap option_fmap option_map].
  intros H. injection H as <-. unfold slice. cbn [Nat.add].
  replace (i * 5 + 5 - i * 5)%nat with 5%nat by lia.
  replace (i * 5)%nat with (5 * i)%nat by lia. split; [reflexivity|].
  pose proof (Nat.div_mod_eq (length bytecode + 5 - 1) 5) as Hdm.
  pose proof (Nat.mod_upper_bound (length bytecode + 5 - 1) 5 ltac:(lia)). lia.
Qed.

Lemma split_instructions_concat (n : nat) (bytecode : list byte) :
  (length bytecode <= 5 * n)%nat -> concat (split_instructions bytecode) = bytecode.
Proof.
  revert bytecode. induction n as [|n IH]; intros bytecode Hl.
  - destruct bytecode; [reflexivity | cbn in Hl; lia].
  - destruct (decide (length bytecode <= 5)%nat) as [Hshort|Hlong].
    + destruct bytecode as [|b bytecode]; [reflexivity|].
      rewrite split_instructions_fragment by (cbn [length] in *; lia).
      cbn [concat]. apply app_nil_r.
    + rewrite <- (take_drop 5 bytecode) at 2.
      rewrite <- (take_drop 5 bytecode) at 1.
      rewrite split_instructions_word by (rewrite length_take; lia).
      cbn [concat]. rewrite IH by (rewrite length_drop; lia). reflexivity.
Qed.

Lemma split_instructions_words (words : list (list byte)) :
  Forall (fun word => length word = 5%nat) words ->
  split_instructions (concat words) = words.
Proof.
  induction 1 as [|word words Hl _ IH]; [reflexivity|].
  cbn [concat]. rewrite split_instructions_word by exact Hl. rewrite IH. reflexivity.
Qed.

(** X10. The interpreter cuts the bytecode into consecutive windows and
    loses no byte: the windows concatenated are the bytecode, there are
    [ceil(len / 5)] of them, window [i] holds the bytes from [5 * i] up to
    [5 * i + 5] or up to the end, and no window is empty. *)
Theorem split_instructions_partition (bytecode : list byte) :
  concat (split_instructions bytecode) = bytecode /\
  length (split_instructions bytecode) = ((length bytecode + 4) / 5)%nat /\
  (forall i word,
     split_instructions bytecode !! i = Some word ->
     word = take 5 (drop (5 * i) bytecode) /\
     length word = Nat.min 5 (length bytecode - 5 * i) /\
     (0 < length word)%nat).
Proof.
  split; [|split].
  - apply (split_instructions_concat (length bytecode)). lia.
  - apply split_instructions_length.
  - intros i word [-> Hlt]%split_instructions_lookup.
    rewrite length_take, length_drop. split; [reflexivity|]. lia.
Qed.

Lemma asm_loop_from (IR : list ir_entry) (bytecode : list byte) :
  asm_loop IR bytecode =
    match asm IR with
    | Ok words => Ok (bytecode ++ words)
    | Raise e => Raise e
    end.
Proof.
  unfold asm. revert bytecode. induction IR as [|entry IR IH]; intros bytecode.
  - cbn. rewrite app_nil_r. reflexivity.
  - cbn [asm_loop]. destruct (asm_entry entry) as [word|e]; cbn [bind]; [|reflexivity].
    rewrite (IH (bytecode ++ word)), (IH ([] ++ word)).
    destruct (asm_loop IR []) as [words|e]; [|reflexivity].
    rewrite <- app_assoc. reflexivity.
Qed.

(** X11. Assembling a concatenated IR gives the concatenated bytecode,
    and fails with the error of the first part when that part fails and
    with the error of the second part otherwise. *)
Theorem asm_app (IR1 IR2 : list ir_entry) :
  asm (IR1 ++ IR2) =
    match asm IR1, asm IR2 with
    | Ok bytecode1, Ok bytecode2 => Ok (bytecode1 ++ bytecode2)
    | Ok _, Raise e => Raise e
    | Raise e, _ => Raise e
    end.
Proof.
  induction IR1 as [|entry IR1 IH].
  - cbn [app]. change (asm []) with (@Ok (list byte) []).
    destruct (asm IR2); reflexivity.
  - unfold asm in *. cbn [app asm_loop].
    destruct (asm_entry entry) as [word|e]; cbn [bind]; [|reflexivity].
    rewrite (asm_loop_from (IR1 ++ IR2)), (asm_loop_from IR1). unfold asm. rewrite IH.
    destruct (asm_loop IR1 []) as [b1|e1]; [|reflexivity].
    destruct (asm_loop IR2 []) as [b2|e2]; [|reflexivity].
    rewrite app_assoc. reflexivity.
Qed.

Lemma full_asm_inv (text : string) (bytecode : list byte) (IR : list ir_entry) :
  full_asm text = Ok (bytecode, IR) ->
  full_asm_lines (splitlines (strip text)) [] = Ok IR /\
  exists words,
    Forall2 (fun entry word => asm_entry entry = Ok word) IR words /\
    bytecode = concat words.
Proof.
  unfold full_asm.
  destruct (full_asm_lines (splitlines (strip text)) []) as [IR0|e]; cbn [bind];
    [|discriminate].
  destruct (asm IR0) as [bytecode0|e] eqn:Hasm; cbn [bind]; [|discriminate].
  intros H. injection H as <- <-. split; [reflexivity|].
  destruct (asm_loop_inv _ _ _ Hasm) as (words & Hwords & Hbytes).
  exists words. split; [exact Hwords | exact Hbytes].
Qed.

Lemma asm_words_length (IR : list ir_entry) (words : list (list byte)) :
  Forall2 (fun entry word => asm_entry entry = Ok word) IR words ->
  Forall (fun word => length word = 5%nat) words.
Proof.
  induction 1 as [|[op arg] word IR words He _ IH]; constructor; [|exact IH].
  rewrite asm_entry_opcode in He. destruct (mnemonic_opcode op); [|discriminate].
  exact (pack_instruction_length _ _ _ He).
Qed.

Lemma full_asm_windows (text : string) (bytecode : list byte) (IR : list ir_entry) :
  full_asm text = Ok (bytecode, IR) ->
  length bytecode = (5 * length IR)%nat /\
  length (split_instructions bytecode) = length IR /\
  Forall2 (fun word entry => decode_instruction word = Ok entry)
    (split_instructions bytecode) IR.
Proof.
  intros (_ & words & Hwords & ->)%full_asm_inv.
  pose proof (asm_words_length IR words Hwords) as H5.
  rewrite split_instructions_words by exact H5.
  split; [|split].
  - rewrite (Forall2_length _ _ _ Hwords). apply concat_words_length. exact H5.
  - symmetry. exact (Forall2_length _ _ _ Hwords).
  - apply Forall2_flip. eapply Forall2_impl; [exact Hwords|].
    intros [op arg] word He. rewrite asm_entry_opcode in He.
    destruct (mnemonic_opcode op) as [a|] eqn:Hop; [|discriminate].
    exact (pack_decodes_mnemonic op a arg word Hop He).
Qed.

(** X12. What the assembler returns is what the interpreter reads: the
    bytecode of [full_asm] is cut by the interpreter into exactly one
    5-byte window per IR entry, with no fragment left over, and each
    window decodes to the mnemonic and the argument of its entry. *)
Theorem full_asm_decodes (text : string) (bytecode : list byte) (IR : list ir_entry) :
  full_asm text = Ok (bytecode, IR) ->
  length bytecode = (5 * length IR)%nat /\
  length (split_instructions bytecode) = length IR /\
  Forall2 (fun word entry => decode_instruction word = Ok entry)
    (split_instructions bytecode) IR.
Proof.
  intros (_ & words & Hwords & ->)%full_asm_inv.
  pose proof (asm_words_length IR words Hwords) as H5.
  rewrite split_instructions_words by exact H5.
  pose proof (Forall2_length _ _ _ Hwords) as Hn.
  split; [rewrite Hn; apply concat_words_length; exact H5|].
  split; [symmetry; exact Hn|].
  apply Forall2_flip. eapply Forall2_impl; [exact Hwords|].
  intros [op arg] word He. rewrite asm_entry_opcode in He.
  destruct (mnemonic_opcode op) as [a|] eqn:Hop; [|discriminate].
  exact (pack_decodes_mnemonic op a arg word Hop He).
Qed.

Lemma full_asm_decodes_witness :
  length [x8e; xbe; x00; x00; x00] = (5 * length [("load_const"%string, 381%Z)])%nat /\
  length (split_instructions [x8e; xbe; x00; x00; x00]) = length [("load_const"%string, 381)] /\
  Forall2 (fun word entry => decode_instruction word = Ok entry)
    (split_instructions [x8e; xbe; x00; x00; x00]) [("load_const"%string, 381)].
Proof.
  apply (full_asm_decodes "load_const; 381"). vm_compute. reflexivity.
Defined.

(** ** Whole runs *)

Lemma decode_known (word : list byte) (cmd : string) (b : Z) :
  decode_instruction word = Ok (cmd, b) ->
  cmd = "load_const"%string \/ cmd = "read_value"%string \/
  cmd = "write_value"%string \/ cmd = "less"%string.
Proof.
  intros (_ & Hname & _)%decode_instruction_ok.
  rewrite OPCODE_NAMES_lookup in Hname. apply opcode_name_mnemonic in Hname.
  exact (mnemonic_opcode_known _ _ Hname).
Qed.

Lemma execute_known (cmd : string) (b : Z) (m : UVMMemory) (entry : log_entry) :
  cmd = "load_const"%string \/ cmd = "read_value"%string \/
  cmd = "write_value"%string \/ cmd = "less"%string ->
  execute cmd b m <> Break entry.
Proof.
  intros [->|[->|[->| ->]]]; unfold execute, read_data, write_data;
    cbn [String.eqb Ascii.eqb Bool.eqb];
    repeat match goal with
    | |- context [ if ?c then _ else _ ] => destruct c
    | |- context [ match ?l !! ?i with _ => _ end ] => destruct (l !! i)
    end; discriminate.
Qed.

Lemma while_loop_frame (fuel : nat) (instrs : list (list byte))
    (m : UVMMemory) (log : list log_entry) (x : loop_exit) :
  while_loop fuel instrs m log = Some x ->
  stack (exit_memory x) = stack m /\
  length (data (exit_memory x)) = length (data m) /\
  ip (exit_memory x) <= Z.max (ip m) (Z.of_nat (length instrs)).
Proof.
  revert m log. induction fuel as [|fuel IH]; intros m log; [discriminate|].
  loop_cases m instrs; intros H;
    try (inversion H; subst; cbn [exit_memory]; repeat split; lia).
  apply IH in H. cbn [set_ip ip stack data] in H. destruct H as (Hs & Hl & Hi).
  rewrite Hs, Hl, (execute_done_stack _ _ _ _ He), (execute_done_length _ _ _ _ He).
  apply execute_done_ip in He. repeat split. lia.
Qed.

(** X13. Whatever the bytecode and however the run ends, [run_program]
    ends, leaves the stack and the number of memory cells as they were,
    never moves the program counter backwards, and never moves it past
    the number of instruction windows unless it started there. *)
Theorem run_program_frame (bytecode : list byte) (m : UVMMemory) :
  exists o,
    run_program bytecode m = Some o /\
    stack (outcome_memory o) = stack m /\
    length (data (outcome_memory o)) = length (data m) /\
    ip m <= ip (outcome_memory o) <=
      Z.max (ip m) (Z.of_nat (length (split_instructions bytecode))).
Proof.
  destruct (run_program_total bytecode m) as (x & [fuel Hx] & ->).
  eexists. split; [reflexivity|].
  destruct (while_loop_frame _ _ _ _ _ Hx) as (Hs & Hl & Hi).
  pose proof (while_loop_ip_mono _ _ _ _ _ Hx) as Hmono.
  destruct x; cbn [conclude exit_prepend outcome_memory exit_memory] in *; auto.
Qed.

Lemma while_loop_added (fuel : nat) (instrs : list (list byte))
    (m : UVMMemory) (log body : list log_entry) (m1 : UVMMemory) :
  while_loop fuel instrs m log = Some (Exit body m1) ->
  exists added,
    body = log ++ added /\
    Z.of_nat (count_exec added) = ip m1 - ip m /\
    (forall cmd, LogUnknownCommand cmd ∉ added).
Proof.
  revert m log. induction fuel as [|fuel IH]; intros m log; [discriminate|].
  loop_cases m instrs; intros H; try discriminate H.
  - apply IH in H. destruct H as (added & -> & Hcount & Hun).
    apply execute_done_ip in He. cbn [set_ip ip] in Hcount.
    exists (LogExec (ip m) cmd operand (acc m) :: added).
    split; [rewrite <- app_assoc; reflexivity|]. split.
    + change (count_exec (LogExec (ip m) cmd operand (acc m) :: added))
        with (S (count_exec added)). lia.
    + intros c Hin. apply elem_of_cons in Hin as [Hin|Hin]; [discriminate|].
      exact (Hun c Hin).
  - exfalso. exact (execute_known _ _ _ _ (decode_known _ _ _ Hd) He).
  - inversion H; subst. exists [LogDecodeError (ip m1) e].
    split; [reflexivity|]. split; [cbn; lia|].
    intros c Hin. apply list_elem_of_singleton in Hin. discriminate.
  - inversion H; subst. exists []. split; [rewrite app_nil_r; reflexivity|].
    split; [cbn; lia|]. intros c Hin. inversion Hin.
Qed.

(** X14. A returned log starts with the line that reports the number of
    windows and ends with the three summary lines of the final state;
    between them it has one execution line for every step the program
    counter advanced, and it never has the unknown-command line: after a
    successful decode the last branch of the dispatch is not reached. *)
Theorem run_program_log (bytecode : list byte) (m : UVMMemory)
    (log : list log_entry) (m1 : UVMMemory) :
  run_program bytecode m = Some (Returned log m1) ->
  exists body,
    log = LogStart (length (split_instructions bytecode)) :: body ++ summary m1 /\
    Z.of_nat (count_exec body) = ip m1 - ip m /\
    (forall cmd, LogUnknownCommand cmd ∉ log).
Proof.
  rewrite run_program_conclude.
  destruct (while_loop _ _ _ _) as [[body m1'|e m1']|] eqn:Hloop;
    cbn [fmap option_fmap option_map conclude]; [|discriminate|discriminate].
  intros H. injection H as <- <-.
  destruct (while_loop_added _ _ _ _ _ _ Hloop) as (added & -> & Hcount & Hun).
  exists added. split; [reflexivity|]. split; [exact Hcount|].
  intros c Hin. cbn [app] in Hin. apply elem_of_cons in Hin as [Hin|Hin]; [discriminate|].
  apply elem_of_app in Hin as [Hin|Hin]; [exact (Hun c Hin)|].
  unfold summary in Hin. repeat (apply elem_of_cons in Hin as [Hin|Hin]; [discriminate|]).
  inversion Hin.
Qed.

Lemma run_program_log_witness :
  exists body,
    [LogStart 1; LogExec 0 "load_const" 5 0] ++ summary (set_ip (set_acc UVMMemory_default 5) 1)
      = LogStart (length (split_instructions [x8e; x02; x00; x00; x00]))
          :: body ++ summary (set_ip (set_acc UVMMemory_default 5) 1) /\
    Z.of_nat (count_exec body) = ip (set_ip (set_acc UVMMemory_default 5) 1) - ip UVMMemory_default /\
    (forall cmd,
       LogUnknownCommand cmd ∉
         [LogStart 1; LogExec 0 "load_const" 5 0]
           ++ summary (set_ip (set_acc UVMMemory_default 5) 1)).
Proof.
  apply (run_program_log [x8e; x02; x00; x00; x00] UVMMemory_default).
  vm_compute. reflexivity.
Defined.

(** X15. With no bytecode at all the loop body is never entered: when
    the program counter is not negative [run_program] returns at once,
    with the memory object untouched and a log of the start line and the
    summary; with a negative program counter the fetch from the empty
    window list raises [IndexError], which leaves [run_program]. *)
Theorem run_program_empty (m : UVMMemory) :
  (0 <= ip m -> run_program [] m = Some (Returned (LogStart 0 :: summary m) m)) /\
  (ip m < 0 -> run_program [] m = Some (Raised (IndexError MsgListIndex) m)).
Proof.
  unfold run_program. change (split_instructions []) with (@nil (list byte)).
  unfold loop_fuel. cbn [while_loop length].
  split; intros Hip.
  - destruct (Z.ltb_spec (ip m) (Z.of_nat 0)); [lia | reflexivity].
  - destruct (Z.ltb_spec (ip m) (Z.of_nat 0)); [|lia].
    unfold getitem. cbn [length].
    destruct (Z.leb_spec 0 (ip m)); [lia|].
    destruct (Z.leb_spec 0 (ip m + Z.of_nat 0)); [lia | reflexivity].
Qed.

Lemma run_program_empty_witness :
  run_program [] UVMMemory_default =
    Some (Returned (LogStart 0 :: summary UVMMemory_default) UVMMemory_default).
Proof.
  destruct (run_program_empty UVMMemory_default) as [Hrun _].
  apply Hrun. vm_compute. discriminate.
Defined.

Lemma decode_operand_nonneg (word : list byte) (cmd : string) (b : Z) :
  decode_instruction word = Ok (cmd, b) -> 0 <= b.
Proof.
  intros (_ & _ & ->)%decode_instruction_ok.
  apply Z.shiftr_nonneg. apply int_from_bytes_range.
Qed.

Lemma getitem_lookup {A : Type} (l : list A) (i : Z) :
  0 <= i < Z.of_nat (length l) ->
  exists x, getitem l i = Some x /\ l !! Z.to_nat i = Some x.
Proof.
  intros Hi. unfold getitem. destruct (Z.leb_spec 0 i); [|lia].
  destruct (lookup_lt_is_Some_2 l (Z.to_nat i) ltac:(lia)) as [x Hx]. eauto.
Qed.

Lemma while_loop_completes (fuel : nat) (instrs : list (list byte))
    (m : UVMMemory) (log : list log_entry) :
  runnable (length (data m)) instrs ->
  0 <= ip m -> (0 < fuel)%nat -> Z.of_nat (length instrs) - ip m < Z.of_nat fuel ->
  exists added m1,
    while_loop fuel instrs m log = Some (Exit (log ++ added) m1) /\
    ip m1 = Z.max (ip m) (Z.of_nat (length instrs)) /\
    Forall2 (fun entry word =>
               exists cmd b, decode_instruction word = Ok (cmd, b) /\ records entry cmd b)
      added (drop (Z.to_nat (ip m)) instrs).
Proof.
  revert m log. induction fuel as [|fuel IH]; intros m log Hrun Hip Hpos Hfuel; [lia|].
  cbn [while_loop].
  destruct (Z.ltb_spec (ip m) (Z.of_nat (length instrs))) as [Hc|Hc].
  - destruct (getitem_lookup instrs (ip m) ltac:(lia)) as (word & Hg & Hl).
    rewrite Hg.
    destruct (Forall_lookup_1 _ _ _ _ Hrun Hl) as (cmd & b & Hd & Hb).
    rewrite Hd.
    destruct (execute_in_range cmd b m) as [m' He].
    { destruct (decode_known _ _ _ Hd) as [->|Hk]; [left; reflexivity|].
      destruct Hb as [->|Hb]; [left; reflexivity|].
      right. split; [exact Hk|]. pose proof (decode_operand_nonneg _ _ _ Hd). lia. }
    rewrite He.
    pose proof (execute_done_ip _ _ _ _ He) as Hip'.
    pose proof (execute_done_length _ _ _ _ He) as Hlen'.
    destruct (IH (set_ip m' (ip m + 1)) (log ++ [LogExec (ip m) cmd b (acc m)]))
      as (added & m1 & Hloop & Hend & Hadded).
    { cbn [set_ip data]. rewrite Hlen'. exact Hrun. }
    { cbn [set_ip ip]. lia. }
    { lia. }
    { cbn [set_ip ip]. lia. }
    exists (LogExec (ip m) cmd b (acc m) :: added), m1.
    split; [rewrite Hloop, <- app_assoc; reflexivity|].
    cbn [set_ip ip] in Hend, Hadded. split; [lia|].
    rewrite (drop_S _ _ _ Hl).
    replace (Z.to_nat (ip m + 1)) with (S (Z.to_nat (ip m))) in Hadded by lia.
    constructor; [|exact Hadded].
    exists cmd, b. split; [exact Hd|]. eexists _, _. reflexivity.
  - exists [], m. rewrite app_nil_r. split; [reflexivity|]. split; [lia|].
    rewrite drop_ge by lia. constructor.
Qed.

Lemma full_asm_runnable (N : nat) (windows : list (list byte)) (IR : list ir_entry) :
  Forall2 (fun word entry => decode_instruction word = Ok entry) windows IR ->
  Forall (fun entry => fst entry = "load_const"%string \/ snd entry < Z.of_nat N) IR ->
  runnable N windows.
Proof.
  unfold runnable. induction 1 as [|word [op arg] windows IR Hd _ IH];
    intros HIR; [constructor|].
  apply Forall_cons in HIR as [He HIR]. constructor; [|exact (IH HIR)].
  exists op, arg. split; [exact Hd | exact He].
Qed.

(** X16. A program that assembles and whose addresses are all inside
    the data memory always runs to its end: started at the program
    counter 0, [run_program] returns (it raises nothing and logs no
    error), the final program counter is the number of IR entries, and
    between the start line and the summary the log has exactly one
    execution line per IR entry, in order, with the mnemonic and the
    argument of that entry. *)
Theorem assembled_program_completes (text : string) (bytecode : list byte)
    (IR : list ir_entry) (m : UVMMemory) :
  full_asm text = Ok (bytecode, IR) ->
  ip m = 0 ->
  Forall (fun entry => fst entry = "load_const"%string \/
                       snd entry < Z.of_nat (length (data m))) IR ->
  exists executed m1,
    run_program bytecode m =
      Some (Returned (LogStart (length IR) :: executed ++ summary m1) m1) /\
    ip m1 = Z.of_nat (length IR) /\
    Forall2 (fun entry e => records entry (fst e) (snd e)) executed IR.
Proof.
  intros Hasm Hip HIR.
  destruct (full_asm_windows _ _ _ Hasm) as (_ & Hn & Hwin).
  pose proof (full_asm_runnable _ _ _ Hwin HIR) as Hrun.
  destruct (while_loop_completes
              (S (length (split_instructions bytecode))) (split_instructions bytecode) m [])
    as (executed & m1 & Hloop & Hend & Hexec); try assumption; try lia.
  exists executed, m1. split; [|split].
  - rewrite (run_program_runs _ _ (Exit ([] ++ executed) m1)) by (eexists; exact Hloop).
    rewrite Hn. reflexivity.
  - lia.
  - rewrite Hip in Hexec. cbn [Z.to_nat drop] in Hexec.
    eapply Forall2_trans; [|exact Hexec|exact Hwin].
    intros entry word e (cmd & b & Hd & Hrec) Hd'. cbn beta in Hd'.
    rewrite Hd in Hd'. injection Hd' as <-. exact Hrec.
Qed.

Lemma assembled_program_completes_witness :
  exists executed m1,
    run_program [x8e; x02; x00; x00; x00; x5e; x00; x00; x00; x00;
                 x8e; x01; x00; x00; x00; x45; x00; x00; x00; x00] UVMMemory_default =
      Some (Returned (LogStart 4 :: executed ++ summary m1) m1) /\
    ip m1 = 4 /\
    Forall2 (fun entry e => records entry (fst e) (snd e)) executed
      [("load_const"%string, 5); ("write_value"%string, 0);
       ("load_const"%string, 3); ("less"%string, 0)].
Proof.
  apply (assembled_program_completes less_program
           [x8e; x02; x00; x00; x00; x5e; x00; x00; x00; x00;
            x8e; x01; x00; x00; x00; x45; x00; x00; x00; x00]
           [("load_const"%string, 5); ("write_value"%string, 0);
            ("load_const"%string, 3); ("less"%string, 0)]
           UVMMemory_default).
  - vm_compute. reflexivity.
  - reflexivity.
  - repeat constructor; cbn; lia.
Defined.

(** ** White space and comments in the source text *)

Lemma append_nil_r (s : string) : (s +:+ EmptyString)%string = s.
Proof.
  induction s as [|c s IH]; [reflexivity|].
  change (String c s +:+ EmptyString)%string with (String c (s +:+ EmptyString)).
  rewrite IH. reflexivity.
Qed.

Lemma append_cons (c : ascii) (s t : string) :
  (String c s +:+ t)%string = String c (s +:+ t).
Proof. reflexivity. Qed.

Lemma append_nil_l (t : string) : (EmptyString +:+ t)%string = t.
Proof. reflexivity. Qed.

Section Strip.
Variable f : ascii -> bool.

Lemma lstrip_idem (s : string) : lstrip_with f (lstrip_with f s) = lstrip_with f s.
Proof.
  induction s as [|c s IH]; [reflexivity|]. cbn [lstrip_with].
  destruct (f c) eqn:Hc; [exact IH|]. cbn [lstrip_with]. rewrite Hc. reflexivity.
Qed.

Lemma rstrip_cons (c d : ascii) (s r : string) :
  rstrip_with f s = String d r -> rstrip_with f (String c s) = String c (String d r).
Proof. intros H. cbn [rstrip_with]. rewrite H. reflexivity. Qed.

Lemma rstrip_idem (s : string) : rstrip_with f (rstrip_with f s) = rstrip_with f s.
Proof.
  induction s as [|c s IH]; [reflexivity|]. cbn [rstrip_with].
  destruct (rstrip_with f s) as [|d r] eqn:Hr.
  - destruct (f c) eqn:Hc; [reflexivity|]. cbn [rstrip_with]. rewrite Hc. reflexivity.
  - apply rstrip_cons. exact IH.
Qed.

Lemma lstrip_rstrip (s : string) :
  lstrip_with f (rstrip_with f s) = rstrip_with f (lstrip_with f s).
Proof.
  induction s as [|c s IH]; [reflexivity|]. cbn [lstrip_with rstrip_with].
  destruct (f c) eqn:Hc.
  - destruct (rstrip_with f s) as [|d r] eqn:Hr.
    + cbn [lstrip_with] in *. exact IH.
    + cbn [lstrip_with]. rewrite Hc. exact IH.
  - cbn [rstrip_with].
    destruct (rstrip_with f s) as [|d r]; cbn [lstrip_with]; rewrite Hc; reflexivity.
Qed.

Lemma lstrip_append_separator (sep : ascii) (s t : string) :
  f sep = false ->
  lstrip_with f (s +:+ String sep t) = (lstrip_with f s +:+ String sep t)%string.
Proof.
  intros Hsep. induction s as [|c s IH].
  - rewrite !append_nil_l. cbn [lstrip_with]. rewrite Hsep. reflexivity.
  - rewrite append_cons. cbn [lstrip_with]. destruct (f c); [exact IH | reflexivity].
Qed.

Lemma rstrip_separator (sep : ascii) (t : string) :
  f sep = false -> rstrip_with f (String sep t) = String sep (rstrip_with f t).
Proof.
  intros Hsep. cbn [rstrip_with]. destruct (rstrip_with f t); [rewrite Hsep|]; reflexivity.
Qed.

Lemma rstrip_append_separator (sep : ascii) (s t : string) :
  f sep = false ->
  rstrip_with f (s +:+ String sep t) = (s +:+ String sep (rstrip_with f t))%string.
Proof.
  intros Hsep. induction s as [|c s IH].
  - rewrite !append_nil_l. apply rstrip_separator. exact Hsep.
  - rewrite !append_cons. cbn [rstrip_with]. rewrite IH.
    destruct s; reflexivity.
Qed.

Lemma contains_lstrip (c : ascii) (s : string) :
  contains c s = false -> contains c (lstrip_with f s) = false.
Proof.
  induction s as [|d s IH]; [reflexivity|]. cbn [contains lstrip_with].
  intros H. destruct (f d); [|exact H].
  apply orb_false_iff in H as [_ H]. exact (IH H).
Qed.

Lemma contains_rstrip (c : ascii) (s : string) :
  contains c s = false -> contains c (rstrip_with f s) = false.
Proof.
  induction s as [|d s IH]; [reflexivity|]. cbn [contains rstrip_with].
  intros H. apply orb_false_iff in H as [Hd H]. specialize (IH H).
  destruct (rstrip_with f s) as [|e r].
  - destruct (f d); [reflexivity|]. cbn [contains]. rewrite Hd. reflexivity.
  - cbn [contains] in *. rewrite Hd. exact IH.
Qed.
End Strip.

Lemma strip_idem (s : string) : strip (strip s) = strip s.
Proof.
  unfold strip. rewrite lstrip_rstrip, lstrip_idem, rstrip_idem. reflexivity.
Qed.

Lemma strip_lstrip (s : string) : strip (lstrip_with isspace s) = strip s.
Proof. unfold strip. rewrite lstrip_idem. reflexivity. Qed.

Lemma strip_rstrip (s : string) : strip (rstrip_with isspace s) = strip s.
Proof. unfold strip. rewrite lstrip_rstrip, rstrip_idem. reflexivity. Qed.

Lemma contains_strip (c : ascii) (s : string) :
  contains c s = false -> contains c (strip s) = false.
Proof. intros H. unfold strip. apply contains_rstrip, contains_lstrip, H. Qed.

Lemma contains_separator (c : ascii) (s t : string) :
  contains c (s +:+ String c t) = true.
Proof.
  induction s as [|d s IH].
  - rewrite append_nil_l. cbn [contains]. rewrite Ascii.eqb_refl. reflexivity.
  - rewrite append_cons. cbn [contains]. rewrite IH. apply orb_true_r.
Qed.

Lemma contains_append (c : ascii) (s t : string) :
  contains c (s +:+ t) = contains c s || contains c t.
Proof.
  induction s as [|d s IH]; [reflexivity|].
  rewrite append_cons. cbn [contains]. rewrite IH. apply orb_assoc.
Qed.

Lemma strip_around_separator (sep : ascii) (s t : string) :
  isspace sep = false ->
  strip (s +:+ String sep t) =
    (lstrip_with isspace s +:+ String sep (rstrip_with isspace t))%string.
Proof.
  intros Hsep. unfold strip.
  rewrite lstrip_append_separator, rstrip_append_separator by exact Hsep. reflexivity.
Qed.

Lemma line_body_plain (line : string) :
  contains "#"%char line = false -> line_body line = strip line.
Proof.
  intros H. unfold line_body. rewrite (contains_strip _ _ H). reflexivity.
Qed.

Lemma line_body_comment (line comment : string) :
  contains "#"%char line = false ->
  line_body (line +:+ String "#"%char comment) = strip line.
Proof.
  intros H. unfold line_body.
  rewrite strip_around_separator by reflexivity.
  rewrite contains_separator.
  rewrite split_at_separator by (apply contains_lstrip; exact H).
  cbn [nth]. apply strip_lstrip.
Qed.

Lemma parse_line_body (line line' : string) :
  line_body line = line_body line' -> parse_line line = parse_line line'.
Proof.
  intros H. unfold parse_line. fold (line_body line) (line_body line').
  rewrite H. reflexivity.
Qed.

(** X17. A trailing comment does not change what a line assembles to:
    for a line without [#], the line followed by [#] and any text is
    parsed as the line alone; and the assembler skips a line that holds
    only a comment. *)
Theorem comment_is_ignored (line comment : string) :
  contains "#"%char line = false ->
  parse_line (line +:+ String "#"%char comment) = parse_line line /\
  parse_line (String "#"%char comment) = Ok None.
Proof.
  intros H. split.
  - apply parse_line_body. rewrite line_body_comment, line_body_plain by exact H.
    reflexivity.
  - unfold parse_line. fold (line_body (String "#"%char comment)).
    rewrite <- (append_nil_l (String "#"%char comment)).
    rewrite line_body_comment by reflexivity. reflexivity.
Qed.

Lemma comment_is_ignored_witness :
  parse_line ("load_const; 381" +:+ String "#"%char " comment") =
  parse_line "load_const; 381".
Proof.
  destruct (comment_is_ignored "load_const; 381" " comment") as [H _];
    [reflexivity | exact H].
Defined.

Lemma is_empty_separator (sep : ascii) (s t : string) :
  is_empty (s +:+ String sep t) = false.
Proof. destruct s; reflexivity. Qed.

Lemma parse_line_two (x y : string) :
  contains ";"%char x = false -> contains "#"%char x = false ->
  contains ";"%char y = false -> contains "#"%char y = false ->
  parse_line (x +:+ String ";"%char y) =
    if is_empty (strip y)
    then Raise (ValueError (MsgArgumentRequired (strip x)))
    else match int (strip y) with
         | Ok value => Ok (Some (strip x, value))
         | Raise e => Raise e
         end.
Proof.
  intros Hx Hxc Hy Hyc. unfold parse_line.
  fold (line_body (x +:+ String ";"%char y)).
  rewrite line_body_plain.
  2:{ rewrite contains_append. cbn [contains]. rewrite Hxc, Hyc. reflexivity. }
  rewrite strip_around_separator by reflexivity.
  rewrite is_empty_separator.
  rewrite split_at_separator by (apply contains_lstrip; exact Hx).
  rewrite split_no_separator by (apply contains_rstrip; exact Hy).
  cbn [nth length Nat.ltb Nat.leb andb].
  rewrite strip_lstrip, strip_rstrip.
  destruct (is_empty (strip y)); cbn [negb]; [reflexivity|].
  destruct (int (strip y)); reflexivity.
Qed.

(** X18. For a line [mnemonic;argument] without a comment, only the
    stripped mnemonic and the stripped argument matter: with an empty or
    blank argument the line is refused with the error that names the
    stripped mnemonic, otherwise the stripped argument is read by [int];
    so two such lines whose fields differ only in surrounding white space
    parse alike. *)
Theorem fields_are_stripped (x y x' y' : string) :
  contains ";"%char x = false -> contains "#"%char x = false ->
  contains ";"%char y = false -> contains "#"%char y = false ->
  contains ";"%char x' = false -> contains "#"%char x' = false ->
  contains ";"%char y' = false -> contains "#"%char y' = false ->
  strip x' = strip x -> strip y' = strip y ->
  parse_line (x +:+ String ";"%char y) =
    (if is_empty (strip y)
     then Raise (ValueError (MsgArgumentRequired (strip x)))
     else match int (strip y) with
          | Ok value => Ok (Some (strip x, value))
          | Raise e => Raise e
          end) /\
  parse_line (x' +:+ String ";"%char y') = parse_line (x +:+ String ";"%char y).
Proof.
  intros Hx Hxc Hy Hyc Hx' Hxc' Hy' Hyc' Hsx Hsy.
  split; [apply parse_line_two; assumption|].
  rewrite !parse_line_two by assumption. rewrite Hsx, Hsy. reflexivity.
Qed.

Lemma fields_are_stripped_witness :
  parse_line ("  load_const " +:+ String ";"%char "   381  ") =
  parse_line ("load_const" +:+ String ";"%char "381").
Proof.
  exact (proj2 (fields_are_stripped "load_const" "381" "  load_const " "   381  "
                  eq_refl eq_refl eq_refl eq_refl eq_refl eq_refl eq_refl eq_refl
                  eq_refl eq_refl)).
Defined.

Lemma all_space_lstrip (ws s : string) :
  all_space ws = true -> lstrip_with isspace (ws +:+ s) = lstrip_with isspace s.
Proof.
  induction ws as [|c ws IH]; [reflexivity|]. cbn [all_space]. intros H.
  apply andb_true_iff in H as [Hc Hws].
  rewrite append_cons. cbn [lstrip_with]. rewrite Hc. exact (IH Hws).
Qed.

Lemma all_space_rstrip_nil (ws : string) :
  all_space ws = true -> rstrip_with isspace ws = EmptyString.
Proof.
  induction ws as [|c ws IH]; [reflexivity|]. cbn [all_space]. intros H.
  apply andb_true_iff in H as [Hc Hws].
  cbn [rstrip_with]. rewrite (IH Hws), Hc. reflexivity.
Qed.

Lemma all_space_rstrip (s ws : string) :
  all_space ws = true -> rstrip_with isspace (s +:+ ws) = rstrip_with isspace s.
Proof.
  intros H. induction s as [|c s IH].
  - rewrite append_nil_l. apply all_space_rstrip_nil. exact H.
  - rewrite append_cons. cbn [rstrip_with]. rewrite IH. reflexivity.
Qed.

Lemma all_space_strip (ws1 s ws2 : string) :
  all_space ws1 = true -> all_space ws2 = true ->
  strip (ws1 +:+ s +:+ ws2) = strip s.
Proof.
  intros H1 H2. unfold strip. rewrite all_space_lstrip by exact H1.
  rewrite <- !lstrip_rstrip. rewrite all_space_rstrip by exact H2. reflexivity.
Qed.

Lemma line_body_strip (line line' : string) :
  strip line = strip line' -> line_body line = line_body line'.
Proof. intros H. unfold line_body. rewrite H. reflexivity. Qed.

Lemma full_asm_strip (text text' : string) :
  strip text = strip text' -> full_asm text = full_asm text'.
Proof. intros H. unfold full_asm. rewrite H. reflexivity. Qed.

(** X19. White space around the source text and around a line is
    irrelevant: a text or a line padded on both sides with white space
    assembles to what the unpadded one assembles to. *)
Theorem surrounding_whitespace_is_ignored (ws1 s ws2 : string) :
  all_space ws1 = true -> all_space ws2 = true ->
  strip (ws1 +:+ s +:+ ws2) = strip s /\
  parse_line (ws1 +:+ s +:+ ws2) = parse_line s /\
  full_asm (ws1 +:+ s +:+ ws2) = full_asm s.
Proof.
  intros H1 H2. pose proof (all_space_strip ws1 s ws2 H1 H2) as Hs.
  split; [exact Hs|]. split.
  - apply parse_line_body, line_body_strip, Hs.
  - apply full_asm_strip, Hs.
Qed.

Lemma surrounding_whitespace_is_ignored_witness :
  full_asm ("  " +:+ "load_const; 381" +:+ " ") = full_asm "load_const; 381".
Proof.
  destruct (surrounding_whitespace_is_ignored "  " "load_const; 381" " ")
    as (_ & _ & H); [reflexivity | reflexivity | exact H].
Defined.

Lemma full_asm_lines_skip (pre post : list string) (line : string) (IR : list ir_entry) :
  parse_line line = Ok None ->
  full_asm_lines (pre ++ line :: post) IR = full_asm_lines (pre ++ post) IR.
Proof.
  intros Hskip. revert IR. induction pre as [|first pre IH]; intros IR.
  - cbn [app full_asm_lines]. rewrite Hskip. reflexivity.
  - cbn [app full_asm_lines]. destruct (parse_line first) as [[entry|]|e]; cbn [bind];
      [apply IH | apply IH | reflexivity].
Qed.

(** X20. Blank lines do not count: a line of white space only is
    skipped, and removing a skipped line from anywhere among the lines
    changes neither the IR nor the error of the loop over the lines. *)
Theorem blank_lines_are_skipped (line : string) (pre post : list string)
    (IR : list ir_entry) :
  (all_space line = true -> parse_line line = Ok None) /\
  (parse_line line = Ok None ->
   full_asm_lines (pre ++ line :: post) IR = full_asm_lines (pre ++ post) IR).
Proof.
  split; [|apply full_asm_lines_skip].
  intros Hws. unfold parse_line.
  assert (Hs : strip line = EmptyString).
  { unfold strip. rewrite <- (append_nil_r line).
    rewrite all_space_lstrip by exact Hws. reflexivity. }
  rewrite Hs. reflexivity.
Qed.

Lemma blank_lines_are_skipped_witness :
  full_asm_lines (["load_const;1"%string] ++ "   "%string :: ["less;0"%string]) [] =
  full_asm_lines (["load_const;1"%string] ++ ["less;0"%string]) [].
Proof.
  destruct (blank_lines_are_skipped "   " ["load_const;1"%string] ["less;0"%string] [])
    as [Hblank Hskip].
  apply Hskip, Hblank. reflexivity.
Defined.

(** ** The runner *)

Lemma is_empty_spec (s : string) : is_empty s = true <-> s = EmptyString.
Proof. destruct s; cbn; split; congruence. Qed.

Lemma dump_addresses (m : UVMMemory) (start_addr end_addr : Z) :
  fst <$> dump_cells (dump_memory_to_xml_str m start_addr end_addr) =
    seqZ (Z.max 0 start_addr)
         (Z.min (end_addr + 1) (Z.of_nat (length (data m))) - Z.max 0 start_addr).
Proof.
  unfold dump_memory_to_xml_str. cbn [dump_cells].
  rewrite <- list_fmap_compose. apply list_fmap_id.
Qed.

(** X21. [run_uvm_source] always returns one of three texts.  It is the
    warning exactly when the source is empty or blank; it is the assembly
    error exactly when [full_asm] raises, and then nothing is run;
    otherwise it is the report: the bytecode of [full_asm], the log of
    [run_program] on a fresh memory or the exception that left it, and a
    dump of that memory after the run, which has an empty stack and
    exactly the 32 cells at the addresses 0 to 31. *)
Theorem run_uvm_source_report (source : string) :
  match run_uvm_source source with
  | Some WarnEmpty => strip source = EmptyString
  | Some (AsmError e) => strip source <> EmptyString /\ full_asm source = Raise e
  | Some (Report hex_bytes log_text xml_dump) =>
      strip source <> EmptyString /\
      (exists IR, full_asm source = Ok (hex_bytes, IR)) /\
      (exists o,
         run_program hex_bytes UVMMemory_default = Some o /\
         log_text = match o with
                    | Returned log_messages _ => inl log_messages
                    | Raised e _ => inr e
                    end /\
         xml_dump = dump_memory_to_xml_str (outcome_memory o) 0 31) /\
      dump_stack xml_dump = [] /\
      fst <$> dump_cells xml_dump = seqZ 0 32
  | None => False
  end.
Proof.
  unfold run_uvm_source, assemble_source.
  assert (Hasm : full_asm (strip source) = full_asm source)
    by (apply full_asm_strip, strip_idem).
  destruct (is_empty (strip source)) eqn:Hempty.
  { apply is_empty_spec. exact Hempty. }
  assert (Hne : strip source <> EmptyString).
  { intros H. apply is_empty_spec in H. congruence. }
  rewrite Hasm. destruct (full_asm source) as [[bytecode IR]|e]; [|auto].
  destruct (run_program_total bytecode UVMMemory_default) as (x & [fuel Hx] & Hrun).
  destruct (while_loop_frame _ _ _ _ _ Hx) as (Hstack & Hlen & _).
  rewrite Hrun.
  destruct x as [log m1|e m1]; cbn [conclude exit_prepend exit_memory] in *.
  - split; [exact Hne|]. split; [eauto|]. split.
    + eexists. split; [exact Hrun|]. split; reflexivity.
    + split; [exact Hstack|]. rewrite dump_addresses, Hlen. reflexivity.
  - split; [exact Hne|]. split; [eauto|]. split.
    + eexists. split; [exact Hrun|]. split; reflexivity.
    + split; [exact Hstack|]. rewrite dump_addresses, Hlen. reflexivity.
Qed.
